(** * Broadcast conversations of node-cowboy

    A shallow embedding of [lib/conversations/broadcast.js]: the listener's
    per-request [_reply] / [_end] operations and the requester's aggregator
    ([request] with [_tearDown], [_timeout], [_receiveAck], [_receiveData],
    [_receiveEnd], the interval callback and the channel callbacks).

    JavaScript runs one callback at a time, so each callback of the source
    is a function from the conversation state to the new state and the list
    of effects it performed, in program order. The callbacks that the
    source hands to the channel layer or to the event loop are kept in the
    state as a list of outstanding continuations; the environment later
    completes one of them with the [err] argument it chooses. *)

From Stdlib Require Import ZArith List Bool Lia.
From stdpp Require Import base option list gmap strings pretty.

Local Open Scope string_scope.
Local Open Scope list_scope.
Local Open Scope Z_scope.

(** The character [U+0022], for the log texts that quote a frame type. *)
Definition dquote : string := String (Ascii.ascii_of_nat 34) EmptyString.

(** ** JavaScript values that cross the module's interface *)

(** An opaque payload ([data], [replyData], [message.body]). The module
    never inspects one; [VUndefined] is an absent field. *)
Inductive value : Type :=
| VUndefined
| VNull
| VBool (b : bool)
| VNum (n : Z)
| VStr (s : string).

(** [new Error(message)], and the error objects of the channel layer. *)
Record error : Type := Error { message : string }.

(** A frame on a reply channel: [{'type': .., 'host': .., 'body': ..}]. *)
Record frame : Type := Frame { type : string; host : string; body : value }.

(** Levels of [cowboy.logger.system()]. *)
Inductive level : Type := LTrace | LWarn | LError.

(** A channel, named by [getRequestChannelName(name)] or
    [getReplyChannelName(name, broadcastId)]. *)
Inductive channel : Type :=
| RequestChannel (name : string)
| ReplyChannel (name : string) (broadcastId : string).

(** ** The listener: [_reply] and [_end] of one accepted request *)

Module Listener.

(** What a consumer may pass where a callback is expected: a falsy
    value (nothing), a function, or some other truthy value. *)
Inductive callback : Type :=
| NoCallback
| Fn (k : nat)
| NotFn (v : value).

(** Continuations held by [broadcastChannelOut]. [KEndClosed] carries the
    value of the local [_err] at the time [close] was called. *)
Inductive cont : Type :=
| KReply (callback : callback)
| KEndSent (callback : callback)
| KEndClosed (_err : option error) (callback : callback).

Inductive effect : Type :=
| Send (f : frame)
| Close
| Log (l : level) (err : option error) (text : string)
| Call (k : nat) (err : option error)
| Throw (e : error)
| EmitRequest (message_body : value).

(** The variables shared by the closures of one request: [closed], and
    the callbacks outstanding on [broadcastChannelOut]. *)
Record handler : Type := Handler { closed : bool; pending : list cont }.

Definition result : Type := handler * list effect.

Definition defer (k : cont) (s : handler) : handler :=
  Handler (closed s) (pending s ++ [k]).

(** Calling [callback(err)] once [callback = callback || function() {}]
    has run: the default does nothing, a non-function cannot be called. *)
Definition invoke (callback : callback) (err : option error) : list effect :=
  match callback with
  | NoCallback => []
  | Fn k => [Call k err]
  | NotFn _ => [Throw (Error "callback is not a function")]
  end.

Definition afterEnd : error :=
  Error "Attempted to send response frame after response was ended".

Section WithHost.

(** [_host()] *)
Variable hostname : string.

(** broadcast.js:19-23, a request arrives on [broadcastChannelIn]. *)
Definition onRequest (message_body : value) : list effect :=
  [Send (Frame "ack" hostname VUndefined)].

(** broadcast.js:23-28 and 77, the callback of the acknowledgement: on
    success the closures [_reply] and [_end] are created over a fresh
    [closed = false] and handed to the consumer. *)
Definition onAckSent (message_body : value) (err : option error)
  : option handler * list effect :=
  match err with
  | Some e =>
      (None, [Log LError (Some e)
                "Failed to send broadcast request acknowledgement, ignoring request"])
  | None => (Some (Handler false []), [EmitRequest message_body])
  end.

(** broadcast.js:33-47 *)
Definition _reply (replyData : value) (callback : callback) (s : handler) : result :=
  match callback with
  | NotFn _ =>
      (s, [Throw (Error "Second parameter to reply function should either be unspecified or a function")])
  | _ =>
      if closed s then
        (s, Log LError (Some afterEnd)
              "Rejecting attempt to send broadcast response frame after it was ended"
            :: invoke callback (Some afterEnd))
      else
        (defer (KReply callback) s, [Send (Frame "data" hostname replyData)])
  end.

(** broadcast.js:52-58, up to the call of [send]. *)
Definition _end (callback : callback) (s : handler) : result :=
  let s := Handler true (pending s) in
  (defer (KEndSent callback) s, [Send (Frame "end" hostname VUndefined)]).

(** The callbacks given to [send] and [close], run with their [err]. *)
Definition resume (k : cont) (err : option error) (s : handler) : result :=
  match k with
  | KReply callback => (s, invoke callback err)
  | KEndSent callback =>
      (* broadcast.js:58-65 *)
      match err with
      | Some e =>
          (defer (KEndClosed (Some e) callback) s,
           [Log LWarn (Some e)
              ("Failed to send " +:+ dquote +:+ "end" +:+ dquote
               +:+ " message to broadcast response");
            Close])
      | None => (defer (KEndClosed None callback) s, [Close])
      end
  | KEndClosed _err callback =>
      (* broadcast.js:65-72 *)
      match err with
      | Some e =>
          (s, Log LWarn (Some e)
                ("Failed to send close the broadcast output channel after "
                 +:+ dquote +:+ "end" +:+ dquote +:+ " response")
              :: invoke callback (Some e))
      | None => (s, invoke callback _err)
      end
  end.

(** Modelled from the spec: the channel layer ([cowboy.redis.createChannel]
    and its [send] and [close]), which is not among the sources. Publishing
    and closing are its suspension points and each reports once, through
    the callback it was given, on a later turn.
    What can happen to a handler: the consumer calls [reply] or [end],
    or the channel layer completes the [i]-th outstanding callback. *)
Inductive input : Type :=
| CallReply (replyData : value) (callback : callback)
| CallEnd (callback : callback)
| Complete (i : nat) (err : option error).

Definition step (i : input) (s : handler) : result :=
  match i with
  | CallReply replyData callback => _reply replyData callback s
  | CallEnd callback => _end callback s
  | Complete i err =>
      match pending s !! i with
      | Some k => resume k err (Handler (closed s) (delete i (pending s)))
      | None => (s, [])
      end
  end.

(** The handler after the inputs [ins], and everything it did. *)
Fixpoint run (ins : list input) (s : handler) : result :=
  match ins with
  | [] => (s, [])
  | i :: ins =>
      let '(s1, out1) := step i s in
      let '(s2, out2) := run ins s1 in
      (s2, out1 ++ out2)
  end.

End WithHost.

(** What [_end]'s two callbacks do between the publish and the call of
    the consumer's callback when both are given an error. *)
Definition endWarnings (e_pub e_close : error) : list effect :=
  [Log LWarn (Some e_pub)
     ("Failed to send " +:+ dquote +:+ "end" +:+ dquote
      +:+ " message to broadcast response");
   Close;
   Log LWarn (Some e_close)
     ("Failed to send close the broadcast output channel after "
      +:+ dquote +:+ "end" +:+ dquote +:+ " response")].

Definition isCall (x : effect) : bool :=
  match x with
  | Call _ _ => true
  | _ => false
  end.

(** *** Observations on what a handler did *)

(** The warning that a callback of [_end] logs when it is given an error. *)
Definition warning (text : string) (err : option error) : list effect :=
  match err with
  | Some e => [Log LWarn (Some e) text]
  | None => []
  end.

Definition endSendFailed : string :=
  "Failed to send " +:+ dquote +:+ "end" +:+ dquote
  +:+ " message to broadcast response".

Definition endCloseFailed : string :=
  "Failed to send close the broadcast output channel after "
  +:+ dquote +:+ "end" +:+ dquote +:+ " response".

(** The value of [_err] when the consumer's callback is called. *)
Definition reported (e_pub e_close : option error) : option error :=
  match e_close with
  | Some e => Some e
  | None => e_pub
  end.

Definition isDataFrame (x : effect) : bool :=
  match x with
  | Send f => String.eqb (type f) "data"
  | _ => false
  end.

Definition isEndFrame (x : effect) : bool :=
  match x with
  | Send f => String.eqb (type f) "end"
  | _ => false
  end.

Definition isCallEnd (i : input) : bool :=
  match i with
  | CallEnd _ => true
  | _ => false
  end.

(** No data frame is sent after an end frame; [ended] tells whether an
    end frame was sent before [out]. *)
Fixpoint dataThenEnd (ended : bool) (out : list effect) : bool :=
  match out with
  | [] => true
  | x :: out =>
      if ended && isDataFrame x then false
      else dataThenEnd (ended || isEndFrame x) out
  end.

(** The frames published on the reply channel, in order. *)
Definition sent (out : list effect) : list frame :=
  omap (fun x => match x with Send f => Some f | _ => None end) out.

End Listener.

(** ** The requester: [request] and its aggregator *)

Module Requester.

(** [options.timeout] and [options], each field possibly absent. *)
Record timeout_options : Type :=
  TimeoutOptions { opt_connect : option Z; opt_idle : option Z }.

Record request_options : Type :=
  Options { opt_expect : option (list string); opt_timeout : option timeout_options }.

(** One call [request(name, data, options)] together with what it reads
    from its surroundings: [cowboy.presence.hosts()], [_host()],
    [cowboy.util.rnd()] and the [Date.now()] of line 120. *)
Record call : Type := Call {
  name : string;
  data : value;
  options : request_options;
  hosts : list string;
  hostname : string;
  broadcastId : string;
  start : Z
}.

(** The own properties of [Object.prototype] in Node. The object literals
    of the source ([responses], and [expecting] as [_.invert] builds it)
    inherit them: reading [o[h]] for one of these names finds the member
    of the prototype when [o] has no property [h] of its own. *)
Definition objectPrototype : list string :=
  ["constructor"; "hasOwnProperty"; "isPrototypeOf"; "propertyIsEnumerable";
   "toLocaleString"; "toString"; "valueOf"; "__defineGetter__";
   "__defineSetter__"; "__lookupGetter__"; "__lookupSetter__"; "__proto__"].

Definition inherits (h : string) : bool := bool_decide (h ∈ objectPrototype).

(** What [responses[host]] can hold: the array of the bodies received from
    a host, or a member of [Object.prototype] (all of them are truthy, and
    none has a [push]). *)
Inductive property : Type :=
| Bodies (bs : list value)
| Member.

(** The events of the emitter that [request] returns, with the arguments
    each call of [emitter.emit] passes; an argument that is not passed, or
    is [undefined], is [None]. *)
Inductive event : Type :=
| EvAck (h : string)
| EvData (h : string) (b : value)
| EvHostEnd (h : string) (response : option property)
| EvEnd (responses : gmap string property) (expecting : option (list string))
| EvError (err : error) (expecting : option (list string)).

(** The request frame: [{'broadcastId': .., 'host': .., 'body': ..}]. *)
Record request_frame : Type :=
  RequestFrame { rf_broadcastId : string; rf_host : string; rf_body : value }.

(** What a callback does to its surroundings. [ThrowTypeError] is the
    exception of line 188 when [responses[host]] has no [push]; it leaves
    the ['data'] handler, and the variables of [request] stay as they
    were at that point. *)
Inductive effect : Type :=
| Emit (e : event)
| NextTick
| SetInterval
| ClearInterval
| Listen (c : channel)
| OnData
| Send (c : channel) (m : request_frame)
| Close
| Log (l : level) (text : string)
| ThrowTypeError.

(** The function given to [broadcastChannelIn.close] by [_tearDown]'s
    three callers. *)
Inductive closeCallback : Type :=
| AfterTimeout (reason : string)
| AfterCompletion
| AfterFatal (err : error).

(** Callbacks outstanding with the event loop or the channel layer. *)
Inductive cont : Type :=
| KNextTick
| KListen
| KSend
| KClose (callback : closeCallback).

(** The variables of [request] that its closures share. [timeoutInterval]
    tells whether the interval is armed, [listening] whether the ['data']
    handler is registered on [broadcastChannelIn]. The objects [responses]
    and [expecting] are used as maps from hostnames: [responses] is kept as
    its own properties, and [expecting], of which only the keys are ever
    read, as its own keys in the order of their creation. *)
Record conv : Type := Conv {
  closed : bool;
  responses : gmap string property;
  expecting : list string;
  lastMessage : Z;
  timeoutInterval : bool;
  listening : bool;
  pending : list cont
}.

Definition result : Type := conv * list effect.

(** Callbacks are written as sequences of small actions. *)
Definition action : Type := conv -> result.

Definition skip : action := fun s => (s, []).

Definition seq (a b : action) : action := fun s =>
  let '(s1, out1) := a s in
  let '(s2, out2) := b s1 in
  (s2, out1 ++ out2).

Definition tell (e : effect) : action := fun s => (s, [e]).

Definition modify (f : conv -> conv) : action := fun s => (f s, []).

Definition cond (c : conv -> bool) (a b : action) : action := fun s =>
  if c s then a s else b s.

Definition emit (e : conv -> event) : action := fun s => (s, [Emit (e s)]).

Declare Scope action_scope.
Notation "a ;; b" := (seq a b)
  (at level 100, b at level 200, right associativity) : action_scope.
Local Open Scope action_scope.

Definition set_closed (b : bool) (s : conv) : conv :=
  Conv b (responses s) (expecting s) (lastMessage s) (timeoutInterval s)
    (listening s) (pending s).
Definition set_responses (r : gmap string property) (s : conv) : conv :=
  Conv (closed s) r (expecting s) (lastMessage s) (timeoutInterval s)
    (listening s) (pending s).
Definition set_expecting (e : list string) (s : conv) : conv :=
  Conv (closed s) (responses s) e (lastMessage s) (timeoutInterval s)
    (listening s) (pending s).
Definition set_lastMessage (t : Z) (s : conv) : conv :=
  Conv (closed s) (responses s) (expecting s) t (timeoutInterval s)
    (listening s) (pending s).
Definition set_timeoutInterval (b : bool) (s : conv) : conv :=
  Conv (closed s) (responses s) (expecting s) (lastMessage s) b
    (listening s) (pending s).
Definition set_listening (b : bool) (s : conv) : conv :=
  Conv (closed s) (responses s) (expecting s) (lastMessage s) (timeoutInterval s)
    b (pending s).
Definition set_pending (p : list cont) (s : conv) : conv :=
  Conv (closed s) (responses s) (expecting s) (lastMessage s) (timeoutInterval s)
    (listening s) p.

Definition defer (k : cont) : action :=
  modify (fun s => set_pending (pending s ++ [k]) s).

(** [o[h]] for the object whose own properties are [o]: the own property,
    else the member of the prototype, else [undefined]. *)
Definition get (o : gmap string property) (h : string) : option property :=
  match o !! h with
  | Some x => Some x
  | None => if inherits h then Some Member else None
  end.

(** [o[h] = true] and [delete o[h]] on the own keys of an object. A new key
    comes last; assigning [true] to [__proto__] goes to the setter of
    [Object.prototype], which ignores a value that is not an object and
    creates no property. *)
Definition assign (h : string) (o : list string) : list string :=
  if bool_decide (h ∈ o) then o
  else if String.eqb h "__proto__" then o
  else o ++ [h].

Definition remove (h : string) (o : list string) : list string :=
  List.filter (fun k => negb (String.eqb k h)) o.

(** [_.invert(l)] for an array [l], as its own keys: [result[l[i]] = i]
    for each index [i] in turn. *)
Definition invert (l : list string) : list string :=
  foldl (fun o h => assign h o) [] l.

(** A key that is an array index, the canonical decimal form of an integer
    below [2^32 - 1], and that integer. *)
Definition digit (a : Ascii.ascii) : option N :=
  let n := Ascii.N_of_ascii a in
  if ((48 <=? n) && (n <=? 57))%N then Some (n - 48)%N else None.

Fixpoint decimal (s : string) (acc : N) : option N :=
  match s with
  | EmptyString => Some acc
  | String a s =>
      match digit a with
      | Some d => decimal s (10 * acc + d)%N
      | None => None
      end
  end.

Definition arrayIndex (k : string) : option N :=
  match decimal k 0 with
  | Some n =>
      if (n <? 4294967295)%N && String.eqb (pretty n) k then Some n else None
  | None => None
  end.

Fixpoint insertIndex (p : N * string) (l : list (N * string)) : list (N * string) :=
  match l with
  | [] => [p]
  | q :: l' => if (fst p <=? fst q)%N then p :: l else q :: insertIndex p l'
  end.

(** [_.keys(o)] is [Object.keys(o)]: the own keys that are array indices
    in ascending order, then the others in the order of their creation. *)
Definition keys (o : list string) : list string :=
  (snd <$> foldr insertIndex [] (omap (fun k => (fun n => (n, k)) <$> arrayIndex k) o))
  ++ List.filter (fun k => negb (bool_decide (is_Some (arrayIndex k)))) o.

Definition isEmpty_expecting (s : conv) : bool := bool_decide (expecting s = []).
Definition isEmpty_responses (s : conv) : bool := bool_decide (responses s = ∅).

(** A Number of the source that is an integer is kept as that integer;
    the integers that a Number holds exactly, and on which its sums are
    exact, are the safe ones. *)
Definition safeInteger (n : Z) : bool := Z.abs n <? 2 ^ 53.

(** [util.format('%s', n)] for a safe integer [n]: its decimal digits. *)
Definition format_s (n : Z) : string := pretty n.

Section WithCall.

Variable c : call.

(** broadcast.js:104-108. [x || d] takes [d] when [x] is absent or [0];
    an array, even an empty one, is kept. *)
Definition expect : list string := default (hosts c) (opt_expect (options c)).

Definition or_default (x : option Z) (d : Z) : Z :=
  match x with
  | Some n => if n =? 0 then d else n
  | None => d
  end.

Definition connect : Z :=
  or_default (opt_timeout (options c) ≫= opt_connect) 5000.
Definition idle : Z :=
  or_default (opt_timeout (options c) ≫= opt_idle) 5000.

(** broadcast.js:140-148 *)
Definition _tearDown (callback : closeCallback) : action :=
  cond closed skip
    (modify (set_closed true) ;;
     tell ClearInterval ;; modify (set_timeoutInterval false) ;;
     tell Close ;; defer (KClose callback)).

(** broadcast.js:153-167: the call, and the function it passes on. *)
Definition _timeout (reason : string) : action :=
  _tearDown (AfterTimeout reason).

Definition afterTeardown (callback : closeCallback) (err : option error) : action :=
  match callback with
  | AfterTimeout reason =>
      (match err with
       | Some _ =>
           tell (Log LWarn
             "There was an error tearing down the broadcast conversation request after timeout")
       | None => skip
       end) ;;
      cond isEmpty_responses
        (tell (Log LTrace "Connection timeout in broadcast channel") ;;
         emit (fun s => EvError (Error reason) (Some (keys (expecting s)))))
        (tell (Log LTrace "Idle timeout in broadcast channel") ;;
         emit (fun s => EvEnd (responses s) (Some (keys (expecting s)))))
  | AfterCompletion =>
      (match err with
       | Some _ =>
           tell (Log LWarn
             ("There was an error tearing down the broadcast conversation request "
              +:+ "after successful completion"))
       | None => skip
       end) ;;
      emit (fun s => EvEnd (responses s) None)
  | AfterFatal e => emit (fun _ => EvError e None)
  end.

(** broadcast.js:172-181. Any value found at [responses[host]] is truthy. *)
Definition _receiveAck (h : string) : action :=
  tell (Log LTrace "Received broadcast acknowledgement from a host") ;;
  modify (fun s => set_expecting (assign h (expecting s)) s) ;;
  modify (fun s =>
    match get (responses s) h with
    | Some _ => s
    | None => set_responses (<[h := Bodies []]> (responses s)) s
    end) ;;
  emit (fun _ => EvAck h).

(** broadcast.js:183-192. When [responses[host]] is a member of
    [Object.prototype], line 187 stores it as a property of [responses]
    (for [__proto__] it sets the prototype to what it is) and line 188
    throws, for want of a [push], before [expecting] is touched and the
    event emitted. *)
Definition _receiveData (h : string) (b : value) : action :=
  let push (bs : list value) : action :=
    modify (fun s => set_responses (<[h := Bodies (bs ++ [b])]> (responses s)) s) ;;
    modify (fun s => set_expecting (assign h (expecting s)) s) ;;
    emit (fun _ => EvData h b) in
  tell (Log LTrace "Received broadcast data from a host") ;;
  fun s =>
    match get (responses s) h with
    | Some (Bodies bs) => push bs s
    | None => push [] s
    | Some Member =>
        (modify (fun s =>
           if String.eqb h "__proto__" then s
           else set_responses (<[h := Member]> (responses s)) s) ;;
         tell ThrowTypeError) s
    end.

(** broadcast.js:197-216 *)
Definition _receiveEnd (h : string) : action :=
  tell (Log LTrace "Received broadcast end from a host") ;;
  modify (fun s => set_expecting (remove h (expecting s)) s) ;;
  emit (fun s => EvHostEnd h (get (responses s) h)) ;;
  cond isEmpty_expecting (_tearDown AfterCompletion) skip.

Definition connectReason : string :=
  "Did not receive a message within the connect timeout interval of "
    +:+ format_s connect +:+ "ms".
Definition idleReason : string :=
  "Did not receive a message with the idle timeout interval of "
    +:+ format_s idle +:+ "ms".

(** broadcast.js:219-233, the function given to [setInterval], run at
    a time when [Date.now()] is [now]. *)
Definition onInterval (now : Z) : action :=
  cond closed skip
    (cond (fun s => lastMessage s =? 0)
       (if now >? start c + connect then _timeout connectReason else skip)
       (cond (fun s => now >? lastMessage s + idle)
          (_timeout idleReason)
          skip)).

(** broadcast.js:248-265, the ['data'] handler of [broadcastChannelIn]. *)
Definition onData (now : Z) (message : frame) : action :=
  cond closed skip
    (modify (set_lastMessage now) ;;
     if String.eqb (type message) "ack" then _receiveAck (host message)
     else if String.eqb (type message) "data" then
       _receiveData (host message) (body message)
     else if String.eqb (type message) "end" then _receiveEnd (host message)
     else skip).

(** broadcast.js:276-290, the callback of the request's [send]. *)
Definition onSend (err : option error) : action :=
  match err with
  | Some e =>
      tell (Log LError "Failed to send a broadcast message broadcast message") ;;
      _tearDown (AfterFatal e)
  | None => tell (Log LTrace "Sent request broadcast request")
  end.

(** broadcast.js:237-291, the callback of [broadcastChannelIn.listen].
    The branch for [err] has no [return]. *)
Definition onListen (err : option error) : action :=
  cond closed skip
    ((match err with
      | Some e =>
          tell (Log LError "Failed to begin listening for broadcast replies") ;;
          _tearDown (AfterFatal e)
      | None => skip
      end) ;;
     tell OnData ;; modify (set_listening true) ;;
     tell (Send (RequestChannel (name c))
             (RequestFrame (broadcastId c) (hostname c) (data c))) ;;
     defer KSend).

(** broadcast.js:127-129, the function given to [process.nextTick]. *)
Definition onNextTick : action :=
  emit (fun s => EvEnd (responses s) None).

(** broadcast.js:103-298: what [request] does before it returns. *)
Definition request : result :=
  let s := Conv false ∅ (invert expect) 0 false false [] in
  if bool_decide (expect = []) then
    (tell NextTick ;; defer KNextTick) s
  else
    (tell SetInterval ;; modify (set_timeoutInterval true) ;;
     tell (Listen (ReplyChannel (name c) (broadcastId c))) ;; defer KListen) s.

(** Running an outstanding callback with the [err] it is given. *)
Definition resume (k : cont) (err : option error) : action :=
  match k with
  | KNextTick => onNextTick
  | KListen => onListen err
  | KSend => onSend err
  | KClose callback => afterTeardown callback err
  end.

(** Modelled from the spec: the channel layer ([cowboy.redis.createChannel]
    with [listen], [on], [send] and [close]) and the event loop, which are
    not among the sources. Subscribing, publishing and closing are
    suspension points: each reports once, through the callback it was
    given, on a later turn, in any order and with or without an error.
    What the environment can do to a conversation: the interval fires,
    a frame is delivered on the reply channel, or the [i]-th
    outstanding callback is called. An interval that is not armed does
    not fire, and a frame reaches the code only through the registered
    handler. *)
Inductive input : Type :=
| Tick (now : Z)
| Deliver (now : Z) (message : frame)
| Complete (i : nat) (err : option error).

Definition step (i : input) : action := fun s =>
  match i with
  | Tick now => if timeoutInterval s then onInterval now s else (s, [])
  | Deliver now message => if listening s then onData now message s else (s, [])
  | Complete i err =>
      match pending s !! i with
      | Some k => resume k err (set_pending (delete i (pending s)) s)
      | None => (s, [])
      end
  end.

(** The conversation after the inputs [ins], and everything it did. *)
Fixpoint run (ins : list input) (s : conv) : result :=
  match ins with
  | [] => (s, [])
  | i :: ins =>
      let '(s1, out1) := step i s in
      let '(s2, out2) := run ins s1 in
      (s2, out1 ++ out2)
  end.

(** A whole conversation: [request], then the inputs. *)
Definition conversation (ins : list input) : result :=
  let '(s0, out0) := request in
  let '(s, out) := run ins s0 in
  (s, out0 ++ out).

(** The frames that reached the body of the ['data'] handler, past its
    [closed] guard, in the order of their arrival. *)
Fixpoint processed (ins : list input) (s : conv) : list frame :=
  match ins with
  | [] => []
  | i :: ins =>
      match i with
      | Deliver _ message =>
          if listening s && negb (closed s) then [message] else []
      | _ => []
      end ++ processed ins (fst (step i s))
  end.

(** The condition under which the interval callback calls [_timeout]. *)
Definition timedOut (now : Z) (s : conv) : bool :=
  if lastMessage s =? 0 then now >? start c + connect
  else now >? lastMessage s + idle.

(** An instant at which the interval callback finds a timeout. *)
Definition deadline (s : conv) : Z :=
  Z.max (start c + connect) (lastMessage s + idle) + 1.

(** The Numbers that the interval callback reads at the time [now], and
    the two sums it compares [now] with, are safe integers: the test is
    then the one on integers, and [%s] prints the digits of a timeout. *)
Definition exactClock (now : Z) (s : conv) : bool :=
  safeInteger connect && safeInteger idle && safeInteger (start c)
  && safeInteger (lastMessage s) && safeInteger now
  && safeInteger (start c + connect) && safeInteger (lastMessage s + idle).

End WithCall.

(** *** Observations on what a conversation did *)

Definition terminal (e : event) : bool :=
  match e with
  | EvEnd _ _ | EvError _ _ => true
  | _ => false
  end.

(** The [expecting] argument of a terminal event, when it is passed. *)
Definition expectingArg (e : event) : option (list string) :=
  match e with
  | EvEnd _ a | EvError _ a => a
  | _ => None
  end.

Definition event_of (x : effect) : option event :=
  match x with
  | Emit e => Some e
  | _ => None
  end.

(** The events emitted, in order. *)
Definition events (out : list effect) : list event := omap event_of out.

Definition isTerminal (x : effect) : bool :=
  match x with
  | Emit e => terminal e
  | _ => false
  end.

Definition isEmit (x : effect) : bool :=
  match x with
  | Emit _ => true
  | _ => false
  end.

(** The two steps of [_tearDown]. *)
Definition isClear (x : effect) : bool :=
  match x with
  | ClearInterval => true
  | _ => false
  end.

Definition isClose (x : effect) : bool :=
  match x with
  | Close => true
  | _ => false
  end.

(** The channel operations of the normal flow. *)
Definition isChannelUse (x : effect) : bool :=
  match x with
  | Listen _ | OnData | Send _ _ | Close => true
  | _ => false
  end.

Definition count {A : Type} (p : A -> bool) (l : list A) : nat :=
  length (List.filter p l).

(** Outstanding callbacks that emit a terminal event when they run. *)
Definition closing (k : cont) : bool :=
  match k with
  | KNextTick | KClose _ => true
  | _ => false
  end.

(** No event and no teardown step comes after a terminal event;
    [seen] tells whether a terminal event came before [out]. *)
Fixpoint settled (seen : bool) (out : list effect) : bool :=
  match out with
  | [] => true
  | x :: out =>
      if seen && (isEmit x || isClear x || isClose x) then false
      else settled (seen || isTerminal x) out
  end.

(** The event that an outstanding callback emits when it runs in a
    closed conversation [s]. *)
Definition terminalOf (k : cont) (s : conv) : list event :=
  match k with
  | KNextTick | KClose AfterCompletion => [EvEnd (responses s) None]
  | KClose (AfterTimeout reason) =>
      if isEmpty_responses s then [EvError (Error reason) (Some (keys (expecting s)))]
      else [EvEnd (responses s) (Some (keys (expecting s)))]
  | KClose (AfterFatal e) => [EvError e None]
  | _ => []
  end.

(** The last frame of host [h] among [fs] that is an [ack], a [data] or
    an [end]. *)
Definition concerns (h : string) (m : frame) : bool :=
  String.eqb (host m) h
  && (String.eqb (type m) "ack" || String.eqb (type m) "data"
      || String.eqb (type m) "end").

Definition lastOf (h : string) (fs : list frame) : option frame :=
  last (List.filter (concerns h) fs).

(** [h] is awaited after the frames [fs]: its last frame, if it sent
    one, is not an [end]; if it sent none, it was expected at first. *)
Definition awaited (expect : list string) (fs : list frame) (h : string) : Prop :=
  match lastOf h fs with
  | Some m => type m ≠ "end"
  | None => h ∈ expect
  end.

(** Membership in the terminal [expecting] as the specification words
    it: expected at first or added by an [ack] or a [data], and no
    [end] of the host among the frames. *)
Definition awaitedAsSpecified (expect : list string) (fs : list frame) (h : string) : Prop :=
  (h ∈ expect
   ∨ ∃ m, m ∈ fs ∧ host m = h ∧ (type m = "ack" ∨ type m = "data"))
  ∧ ¬ ∃ m, m ∈ fs ∧ host m = h ∧ type m = "end".

(** The position of the first element of [l] that satisfies [p]. *)
Fixpoint findIndex {A : Type} (p : A -> bool) (l : list A) : option nat :=
  match l with
  | [] => None
  | x :: l => if p x then Some 0%nat else S <$> findIndex p l
  end.

(** Inputs that bring a conversation to its terminal event: if the
    interval is armed, it fires past the deadline and the close that
    follows completes; otherwise the outstanding callback that emits
    the terminal event, if there is one, is called. *)
Definition finish (c : call) (s : conv) : list input :=
  if timeoutInterval s then
    [Tick (deadline c s); Complete (length (pending s)) None]
  else
    match findIndex closing (pending s) with
    | Some i => [Complete i None]
    | None => []
    end.

(** What holds of a conversation [s] and of all it did so far, [out]:
    - a terminal event was emitted or a callback that emits one is
      outstanding, one or the other and only one, exactly when the
      interval is not armed;
    - an armed interval means an open conversation;
    - a conversation neither closed nor armed is the one of an empty
      [expect], which has no handler and no channel callback;
    - [_tearDown]'s two steps ran once if [closed], never otherwise;
    - nothing was emitted or torn down after a terminal event;
    - an [expecting] passed with a terminal event is the current one. *)
Record invariant (s : conv) (out : list effect) : Prop := Invariant {
  inv_one :
    (count closing (pending s) + count isTerminal out
     = if timeoutInterval s then 0 else 1)%nat;
  inv_armed : timeoutInterval s = true -> closed s = false;
  inv_degenerate :
    closed s = false -> timeoutInterval s = false ->
    listening s = false /\ Forall (eq KNextTick) (pending s);
  inv_clear : count isClear out = if closed s then 1%nat else 0%nat;
  inv_close : count isClose out = if closed s then 1%nat else 0%nat;
  inv_settled : settled false out = true;
  inv_reported :
    forall e l, In (Emit e) out -> expectingArg e = Some l ->
    l = keys (expecting s)
}.

(** *** Further observations *)

(** The arrival times of the frames that reached the body of the ['data']
    handler, as [processed] gives the frames. *)
Fixpoint arrivals (c : call) (ins : list input) (s : conv) : list Z :=
  match ins with
  | [] => []
  | i :: ins =>
      match i with
      | Deliver now _ =>
          if listening s && negb (closed s) then [now] else []
      | _ => []
      end ++ arrivals c ins (fst (step c i s))
  end.

(** What the frames [fs] leave in [responses] for host [h], starting from
    the property [r]: once the host sent an [ack] or a [data], the bodies
    of its [data] frames in order of arrival, after what was there. Where
    [responses[h]] is a member of [Object.prototype], an [ack] leaves it
    and the first [data] stores it as a property, unless [h] is
    [__proto__]. *)
Definition opens (h : string) (m : frame) : bool :=
  String.eqb (host m) h
  && (String.eqb (type m) "ack" || String.eqb (type m) "data").

Definition carries (h : string) (m : frame) : bool :=
  String.eqb (host m) h && String.eqb (type m) "data".

Definition dataBodies (h : string) (fs : list frame) : list value :=
  body <$> List.filter (carries h) fs.

Definition recorded (h : string) (r : option property) (fs : list frame)
  : option property :=
  match r, inherits h with
  | Some (Bodies bs), _ => Some (Bodies (bs ++ dataBodies h fs))
  | None, false =>
      if existsb (opens h) fs then Some (Bodies (dataBodies h fs)) else None
  | _, _ =>
      if existsb (carries h) fs && negb (String.eqb h "__proto__") then Some Member
      else r
  end.

(** The properties of [responses] are arrays under the names that
    [Object.prototype] leaves free, and members of it under its own. *)
Definition ownedBy (h : string) (x : property) : Prop :=
  match x with
  | Bodies _ => inherits h = false
  | Member => inherits h = true
  end.

(** The frame that a non-terminal event answers to, and a processed frame
    reduced to what its event keeps of it; the [data] frame of a host
    named as a member of [Object.prototype] has no event, line 188
    throwing before it. *)
Definition eventFrame (e : event) : option frame :=
  match e with
  | EvAck h => Some (Frame "ack" h VUndefined)
  | EvData h b => Some (Frame "data" h b)
  | EvHostEnd h _ => Some (Frame "end" h VUndefined)
  | _ => None
  end.

Definition normalize (m : frame) : option frame :=
  if String.eqb (type m) "ack" then Some (Frame "ack" (host m) VUndefined)
  else if String.eqb (type m) "data" then
    if inherits (host m) then None else Some (Frame "data" (host m) (body m))
  else if String.eqb (type m) "end" then Some (Frame "end" (host m) VUndefined)
  else None.

Definition isListen (x : effect) : bool :=
  match x with
  | Listen _ => true
  | _ => false
  end.

Definition isOnData (x : effect) : bool :=
  match x with
  | OnData => true
  | _ => false
  end.

Definition isSend (x : effect) : bool :=
  match x with
  | Send _ _ => true
  | _ => false
  end.

Definition isKListen (k : cont) : bool :=
  match k with
  | KListen => true
  | _ => false
  end.

(** How a conversation uses its channels: while the callback of the
    subscription is outstanding nothing was published; the handler is
    registered exactly when the request frame was published, and that
    happened at most once; the one frame published is the request frame
    of the call, on the request channel of its name, and the one
    subscription is to the reply channel of its name and broadcast id. *)
Record wiring (c : call) (s : conv) (out : list effect) : Prop := Wiring {
  wire_once : (count isKListen (pending s) + count isSend out <= 1)%nat;
  wire_handler : count isOnData out = count isSend out;
  wire_listening : listening s = negb (count isSend out =? 0)%nat;
  wire_listen :
    count isListen out = if bool_decide (expect c = []) then 0%nat else 1%nat;
  wire_frame :
    forall x, In x out -> isSend x = true ->
    x = Send (RequestChannel (name c))
          (RequestFrame (broadcastId c) (hostname c) (data c));
  wire_channel :
    forall x, In x out -> isListen x = true ->
    x = Listen (ReplyChannel (name c) (broadcastId c))
}.

End Requester.

(** ** A listener answering a requester *)

Module Wire.

(** What the consumer of a request does when it replies with each of the
    bodies [bs] and then ends. *)
Definition answer (bs : list value) : list Listener.input :=
  map (fun b => Listener.CallReply b Listener.NoCallback) bs
  ++ [Listener.CallEnd Listener.NoCallback].

(** The frames the requester receives from the listener on host [h] that
    accepted the request and whose consumer answers with [bs]: the
    acknowledgement, then what the handler published. *)
Definition replyFrames (h : string) (bs : list value) : list frame :=
  Listener.sent (Listener.onRequest h VUndefined)
  ++ Listener.sent (snd (Listener.run h (answer bs) (Listener.Handler false []))).

(** The delivery of the frames [fs] at the times [ts]. *)
Definition deliveries (ts : list Z) (fs : list frame) : list Requester.input :=
  zip_with Requester.Deliver ts fs.

End Wire.

(** ** The listener: [listen] and the requests it hears *)

Module Listening.

(** Callbacks outstanding with the channel layer: that of the
    subscription to the request channel, that of an acknowledgement (with
    the [broadcastId] and the [body] of its request), that of [close]. *)
Inductive cont : Type :=
| KListen
| KAck (broadcastId : string) (message_body : value)
| KClose (callback : Listener.callback).

(** [Of c e]: the effect [e] of the code of one request, whose reply
    channel [broadcastChannelOut] is [c]. *)
Inductive effect : Type :=
| Listen (c : channel)
| OnData
| EmitListen
| Of (c : channel) (e : Listener.effect)
| Close (callback : Listener.callback).

(** The variables of one call of [listen]: whether the ['data'] handler
    is registered on [broadcastChannelIn], and the outstanding callbacks. *)
Record listener : Type := Listener { registered : bool; pending : list cont }.

Definition result : Type := listener * list effect.

Section WithName.

(** The argument of [listen(name)] and [_host()]. *)
Variables (name : string) (hostname : string).

(** broadcast.js:12-16 and 89, what [listen] does before it returns. *)
Definition listen : result :=
  (Listener false [KListen], [Listen (RequestChannel name)]).

(** broadcast.js:19-23, a request frame reaches the ['data'] handler. *)
Definition onData (broadcastId : string) (message_body : value) (s : listener)
  : result :=
  (Listener (registered s) (pending s ++ [KAck broadcastId message_body]),
   map (Of (ReplyChannel name broadcastId))
     (Listener.onRequest hostname message_body)).

(** The callbacks, run with their [err]. That of the subscription
    (broadcast.js:16-83) takes no argument: it registers the handler and
    emits [listen] whatever the subscription reported. *)
Definition resume (k : cont) (err : option error) (s : listener) : result :=
  match k with
  | KListen => (Listener true (pending s), [OnData; EmitListen])
  | KAck broadcastId message_body =>
      (s, map (Of (ReplyChannel name broadcastId))
            (snd (Listener.onAckSent message_body err)))
  | KClose _ => (s, [])
  end.

(** broadcast.js:85-87, [emitter.close]: the callback goes to the channel
    layer as it is. *)
Definition close (callback : Listener.callback) (s : listener) : result :=
  (Listener (registered s) (pending s ++ [KClose callback]), [Close callback]).

(** Modelled from the spec: the channel layer ([cowboy.redis.createChannel]
    with [listen], [on], [send] and [close]), which is not among the
    sources; each of its operations reports once, on a later turn.
    What can happen to a listener: a request frame arrives on the request
    channel, the [i]-th outstanding callback is called, or the consumer
    calls [close]. A frame reaches the code only through the registered
    handler. *)
Inductive input : Type :=
| Request (broadcastId : string) (message_body : value)
| Complete (i : nat) (err : option error)
| CallClose (callback : Listener.callback).

Definition step (i : input) (s : listener) : result :=
  match i with
  | Request broadcastId message_body =>
      if registered s then onData broadcastId message_body s else (s, [])
  | Complete i err =>
      match pending s !! i with
      | Some k => resume k err (Listener (registered s) (delete i (pending s)))
      | None => (s, [])
      end
  | CallClose callback => close callback s
  end.

Fixpoint run (ins : list input) (s : listener) : result :=
  match ins with
  | [] => (s, [])
  | i :: ins =>
      let '(s1, out1) := step i s in
      let '(s2, out2) := run ins s1 in
      (s2, out1 ++ out2)
  end.

(** The requests that reached the body of the ['data'] handler. *)
Fixpoint heard (ins : list input) (s : listener) : list (string * value) :=
  match ins with
  | [] => []
  | i :: ins =>
      match i with
      | Request broadcastId message_body =>
          if registered s then [(broadcastId, message_body)] else []
      | _ => []
      end ++ heard ins (fst (step i s))
  end.

End WithName.

(** The channels on which an acknowledgement was published, the requests
    handed to the consumer, and the acknowledgements that failed. *)
Definition ackOn (x : effect) : option channel :=
  match x with
  | Of c (Listener.Send f) => if String.eqb (type f) "ack" then Some c else None
  | _ => None
  end.

Definition requestOf (x : effect) : option (channel * value) :=
  match x with
  | Of c (Listener.EmitRequest b) => Some (c, b)
  | _ => None
  end.

Definition isDropped (x : effect) : bool :=
  match x with
  | Of _ (Listener.Log LError _ _) => true
  | _ => false
  end.

Definition isEmitListen (x : effect) : bool :=
  match x with
  | EmitListen => true
  | _ => false
  end.

Definition isKAck (k : cont) : bool :=
  match k with
  | KAck _ _ => true
  | _ => false
  end.

Definition isKListen (k : cont) : bool :=
  match k with
  | KListen => true
  | _ => false
  end.

End Listening.

(** ** The helper [_allOnce] of the test suite *)

Module TestSupport.

(** [arguments]: the values an emitter passes to its listeners. *)
Definition arguments : Type := list value.

Inductive effect : Type :=
| Handler (allArguments : list arguments).

(** The state of one call [_allOnce(emitters, eventName, handler)]:
    the emitters in the order given, each position with the flag of its
    [once] listener (still registered or not), and [allArguments]. The
    same emitter may occur at several positions. *)
Record allOnce : Type := AllOnce {
  emitters : list nat;
  registered : list bool;
  allArguments : list arguments
}.

(** part_000:331-341, the call itself: one [once] listener per position. *)
Definition _allOnce (emitters : list nat) : allOnce :=
  AllOnce emitters (map (fun _ => true) emitters) [].

(** The emitter [e] emits [eventName] with [args]: its listeners that are
    still registered run in the order of their registration; each is
    removed, pushes [args], and calls [handler] if [allArguments] has
    reached the number [n] of emitters. *)
Fixpoint listeners (e : nat) (args : arguments) (n : nat)
    (es : list nat) (rs : list bool) (acc : list arguments)
  : list bool * list arguments * list effect :=
  match es, rs with
  | e' :: es, r :: rs =>
      if Nat.eqb e' e && r then
        let acc := acc ++ [args] in
        let '(rs', acc', out) := listeners e args n es rs acc in
        (false :: rs', acc',
         (if Nat.eqb (length acc) n then [Handler acc] else []) ++ out)
      else
        let '(rs', acc', out) := listeners e args n es rs acc in
        (r :: rs', acc', out)
  | _, _ => (rs, acc, [])
  end.

Definition emit (e : nat) (args : arguments) (s : allOnce) : allOnce * list effect :=
  let '(rs, acc, out) :=
    listeners e args (length (emitters s)) (emitters s) (registered s)
      (allArguments s) in
  (AllOnce (emitters s) rs acc, out).

(** A sequence of emissions, each by an emitter with its arguments. *)
Fixpoint run (ems : list (nat * arguments)) (s : allOnce) : allOnce * list effect :=
  match ems with
  | [] => (s, [])
  | (e, args) :: ems =>
      let '(s1, out1) := emit e args s in
      let '(s2, out2) := run ems s1 in
      (s2, out1 ++ out2)
  end.

(** The arguments of the emissions that found a registered listener, one
    copy per listener, in the order in which the listeners ran. *)
Fixpoint collected (ems : list (nat * arguments)) (s : allOnce) : list arguments :=
  match ems with
  | [] => []
  | (e, args) :: ems =>
      map (fun _ => args)
        (List.filter (fun p => Nat.eqb (fst p) e && snd p)
           (zip (emitters s) (registered s)))
      ++ collected ems (fst (emit e args s))
  end.

End TestSupport.

(** * The listener's [reply] and [end] *)

Import Listener.

Lemma deferred_lookup {A : Type} (l : list A) (k : A) :
  (l ++ [k]) !! length l = Some k.
Proof. by apply list_lookup_middle. Qed.

Lemma deferred_delete {A : Type} (l : list A) (k : A) :
  delete (length l) (l ++ [k]) = l.
Proof. by rewrite delete_middle, app_nil_r. Qed.

Lemma listener_step_closed (hostname : string) (i : input) (s : handler) :
  closed s = true -> closed (fst (step hostname i s)) = true.
Proof.
  intros Hc. destruct i as [replyData callback | callback | i err]; cbn.
  - unfold _reply. rewrite Hc. by destruct callback.
  - done.
  - destruct (pending s !! i) as [k|]; [|done].
    destruct k as [cb | cb | e cb], err; cbn; done.
Qed.

Lemma listener_run_closed (hostname : string) (ins : list input) (s : handler) :
  closed s = true -> closed (fst (run hostname ins s)) = true.
Proof.
  revert s. induction ins as [|i ins IH]; intros s Hc; [done|].
  cbn [run]. pose proof (listener_step_closed hostname i s Hc) as H1.
  destruct (step hostname i s) as [s1 out1]. cbn in H1.
  specialize (IH s1 H1). by destruct (run hostname ins s1).
Qed.

(** C2, as amended. When both the publish of the end frame and the close
    of the reply channel report an error, each error is logged as a
    warning and [end]'s callback receives the error of the close, the
    last one met: the second assignment to [_err] replaces the first. *)
Theorem end_reports_close_error (hostname : string) (callback : callback)
    (e_pub e_close : error) (s : handler) :
  let n := length (pending s) in
  snd (run hostname
         [CallEnd callback; Complete n (Some e_pub); Complete n (Some e_close)] s)
  = Send (Frame "end" hostname VUndefined)
      :: endWarnings e_pub e_close ++ invoke callback (Some e_close).
Proof.
  cbn. rewrite deferred_lookup, deferred_delete. cbn.
  rewrite deferred_lookup. cbn. by rewrite app_nil_r.
Qed.

(** C2, the claim refuted: the publish fails with one error and the
    close with another; the callback is called once, with the error of
    the close and not with the first error, that of the publish. *)
Lemma end_reports_first_error_refuted :
  let e_pub := Error "publish failed" in
  let e_close := Error "close failed" in
  let out :=
    snd (run "host0"
           [CallEnd (Fn 7); Complete 0 (Some e_pub); Complete 0 (Some e_close)]
           (Handler false [])) in
  List.filter isCall out = [Call 7 (Some e_close)]
  /\ ~ In (Call 7 (Some e_pub)) out.
Proof.
  cbv zeta. split; [reflexivity|]. cbn.
  intros H. repeat (destruct H as [H|H]; [discriminate H|]). exact H.
Qed.

(** C7. [end] leaves [closed] set in the very turn that issues the
    publish of the end frame, whose callback is then still outstanding;
    whatever happens next, [closed] stays set, and every [reply] then
    fails: a function given as callback receives the after-end error,
    and no frame is sent whatever the callback argument is. *)
Theorem reply_after_end_rejected (hostname : string) (callback : callback)
    (ins : list input) (s : handler) :
  let s1 := fst (_end hostname callback s) in
  let s2 := fst (run hostname ins s1) in
  snd (_end hostname callback s) = [Send (Frame "end" hostname VUndefined)]
  /\ closed s1 = true
  /\ last (pending s1) = Some (KEndSent callback)
  /\ closed s2 = true
  /\ (forall replyData k,
        _reply hostname replyData (Fn k) s2
        = (s2, [Log LError (Some afterEnd)
                  "Rejecting attempt to send broadcast response frame after it was ended";
                Call k (Some afterEnd)]))
  /\ (forall replyData cb f,
        fst (_reply hostname replyData cb s2) = s2
        /\ ~ In (Send f) (snd (_reply hostname replyData cb s2))).
Proof.
  intros s1 s2.
  assert (H2 : closed s2 = true) by (apply listener_run_closed; done).
  split; [reflexivity|]. split; [reflexivity|].
  split; [apply last_snoc|]. split; [exact H2|]. split.
  - intros replyData k. unfold _reply. by rewrite H2.
  - intros replyData cb f. unfold _reply. rewrite H2.
    destruct cb; cbn; (split; [done|]); intros H;
      repeat (destruct H as [H|H]; [discriminate H|]); exact H.
Qed.

(** * The requester *)

Import Requester.

(** ** Counting in traces and in the list of outstanding callbacks *)

Lemma count_app {A : Type} (p : A -> bool) (l1 l2 : list A) :
  count p (l1 ++ l2) = (count p l1 + count p l2)%nat.
Proof. unfold count. by rewrite List.filter_app, length_app. Qed.

Lemma count_delete {A : Type} (p : A -> bool) (l : list A) (i : nat) (k : A) :
  l !! i = Some k ->
  count p l = (count p (delete i l) + if p k then 1 else 0)%nat.
Proof.
  intros H. rewrite <- (take_drop_middle l i k H) at 1.
  rewrite delete_take_drop, !count_app.
  change (k :: drop (S i) l) with ([k] ++ drop (S i) l). rewrite count_app.
  unfold count at 2. cbn. destruct (p k); cbn; lia.
Qed.

Lemma count_zero_not_in {A : Type} (p : A -> bool) (l : list A) (x : A) :
  count p l = 0%nat -> In x l -> p x = false.
Proof.
  unfold count. induction l as [|y l IH]; cbn; [done|].
  destruct (p y) eqn:E; cbn; [done|].
  intros H [->|Hin]; auto.
Qed.

Lemma events_app (l1 l2 : list effect) :
  events (l1 ++ l2) = events l1 ++ events l2.
Proof. apply omap_app. Qed.

Lemma settled_app (seen : bool) (l1 l2 : list effect) :
  settled seen (l1 ++ l2)
  = settled seen l1 && settled (seen || negb (count isTerminal l1 =? 0)%nat) l2.
Proof.
  revert seen. induction l1 as [|x l1 IH]; intros seen; cbn.
  - by rewrite orb_false_r.
  - destruct (seen && (isEmit x || isClear x || isClose x)); [done|].
    rewrite IH. unfold count. cbn.
    by destruct (isTerminal x), seen.
Qed.

Lemma run_app (c : call) (ins1 ins2 : list input) (s : conv) :
  run c (ins1 ++ ins2) s
  = let '(s1, out1) := run c ins1 s in
    let '(s2, out2) := run c ins2 s1 in
    (s2, out1 ++ out2).
Proof.
  revert s. induction ins1 as [|i ins1 IH]; intros s; cbn.
  - by destruct (run c ins2 s).
  - destruct (step c i s) as [s1 out1]. rewrite IH.
    destruct (run c ins1 s1) as [s2 out2].
    destruct (run c ins2 s2) as [s3 out3].
    by rewrite app_assoc.
Qed.

(** ** The invariant of a conversation *)

Ltac unfold_actions :=
  unfold step, resume, onNextTick, onListen, onSend, onData, onInterval,
    afterTeardown, _receiveAck, _receiveData, _receiveEnd, _timeout, _tearDown,
    defer, emit, tell, modify, cond, seq, skip,
    set_closed, set_responses, set_expecting, set_lastMessage,
    set_timeoutInterval, set_listening, set_pending.

Ltac reduce_state :=
  cbn [closed responses expecting lastMessage timeoutInterval listening pending
       fst snd app] in *.

Lemma tearDown_open (callback : closeCallback) (s : conv) :
  closed s = false ->
  _tearDown callback s
  = (Conv true (responses s) (expecting s) (lastMessage s) false (listening s)
       (pending s ++ [KClose callback]),
     [ClearInterval; Close]).
Proof. intros H. unfold_actions. rewrite H. reflexivity. Qed.

Lemma tearDown_closed (callback : closeCallback) (s : conv) :
  closed s = true -> _tearDown callback s = (s, []).
Proof. intros H. unfold_actions. by rewrite H. Qed.

Lemma no_terminal_no_report (out : list effect) (e : event) (l : list string) :
  count isTerminal out = 0%nat -> In (Emit e) out -> expectingArg e = Some l -> False.
Proof.
  intros H0 Hin Harg. pose proof (count_zero_not_in _ _ _ H0 Hin) as Ht.
  cbn in Ht. by destruct e.
Qed.


Ltac split_cases :=
  repeat (case_match; reduce_state;
          try match goal with
              | H : (_, _) = (_, _) |- _ =>
                  apply pair_equal_spec in H; destruct H as [? ?]; subst
              end;
          reduce_state).

Ltac in_cases H :=
  repeat (destruct H as [H|H]; [try discriminate H|]); try (exfalso; exact H).

Ltac solve_reported H1 H7 :=
  let e := fresh "e" in let l := fresh "l" in
  let Hin := fresh "Hin" in let Harg := fresh "Harg" in
  intros e l Hin Harg; apply in_app_or in Hin; destruct Hin as [Hin|Hin];
  [ first [ by eapply H7
          | exfalso; eapply no_terminal_no_report; [|exact Hin|exact Harg]; lia ]
  | cbn in Hin; in_cases Hin;
    try (injection Hin as <-; cbn in Harg; first [discriminate Harg | by injection Harg as <-]) ].

Ltac solve_settled H1 H6 out :=
  rewrite settled_app, H6;
  first [ by destruct (count isTerminal out =? 0)%nat
        | replace (count isTerminal out) with 0%nat by lia; reflexivity ].

Ltac solve_invariant H1 H6 H7 out :=
  constructor; reduce_state; rewrite ?count_app;
  [ try (cbn; lia) | try done | try done | try (cbn; lia) | try (cbn; lia)
  | try solve_settled H1 H6 out | try solve_reported H1 H7 ].

Lemma step_invariant (c : call) (i : input) (s : conv) (out : list effect) :
  invariant s out ->
  invariant (fst (step c i s)) (out ++ snd (step c i s)).
Proof.
  intros [H1 H2 H3 H4 H5 H6 H7].
  destruct s as [cl rs ex lm ti li pe]. reduce_state.
  destruct i as [now | now m | i err].
  - unfold_actions. reduce_state.
    destruct ti; reduce_state; [|rewrite app_nil_r; by constructor].
    rewrite (H2 eq_refl) in *.
    split_cases; rewrite ?app_nil_r; try (by constructor).
    all: solve_invariant H1 H6 H7 out.

  - unfold_actions. reduce_state.
    destruct li; reduce_state; [|rewrite app_nil_r; by constructor].
    destruct cl; reduce_state; [rewrite app_nil_r; by constructor|].
    destruct ti; [|by destruct (H3 eq_refl eq_refl)].
    split_cases; rewrite ?app_nil_r; try (by constructor).
    all: solve_invariant H1 H6 H7 out.
  - unfold step. reduce_state.
    destruct (pe !! i) as [k|] eqn:Hk; reduce_state;
      [|rewrite app_nil_r; by constructor].
    pose proof (count_delete closing pe i k Hk) as Hd.
    assert (Hdeg : cl = false -> ti = false -> k = KNextTick).
    { intros -> ->. destruct (H3 eq_refl eq_refl) as [_ HF].
      symmetry. by apply (Forall_lookup_1 _ _ _ _ HF Hk). }
    assert (HF : cl = false -> ti = false -> Forall (eq KNextTick) (delete i pe)).
    { intros -> ->. destruct (H3 eq_refl eq_refl) as [_ HF].
      by apply Forall_delete. }
    destruct k as [| | |cb]; cbn in Hd.
    + unfold_actions. reduce_state.
      destruct ti; [lia|].
      solve_invariant H1 H6 H7 out.
      intros -> _. split; [by destruct (H3 eq_refl eq_refl)|by apply HF].
    + unfold_actions. reduce_state.
      destruct cl; reduce_state.
      { rewrite app_nil_r. constructor; reduce_state; try done. lia. }
      destruct ti; [|by discriminate Hdeg].
      split_cases.
      all: solve_invariant H1 H6 H7 out.
    + unfold_actions. reduce_state.
      destruct cl, ti, err; reduce_state; try (by discriminate Hdeg);
        try (by discriminate H2).
      all: solve_invariant H1 H6 H7 out.
    + destruct ti; [lia|].
      destruct cl; [|by discriminate Hdeg].
      destruct cb as [reason| |e]; unfold_actions; reduce_state.
      all: split_cases.
      all: solve_invariant H1 H6 H7 out.
Qed.

Lemma run_invariant (c : call) (ins : list input) (s : conv) (out : list effect) :
  invariant s out ->
  invariant (fst (run c ins s)) (out ++ snd (run c ins s)).
Proof.
  revert s out. induction ins as [|i ins IH]; intros s out H; cbn [run].
  - cbn. by rewrite app_nil_r.
  - pose proof (step_invariant c i s out H) as H1.
    destruct (step c i s) as [s1 out1]. cbn [fst snd] in H1.
    specialize (IH s1 _ H1). destruct (run c ins s1) as [s2 out2].
    cbn [fst snd] in *. by rewrite app_assoc.
Qed.

Lemma request_invariant (c : call) :
  invariant (fst (request c)) (snd (request c)).
Proof.
  unfold request. case_bool_decide; unfold_actions; reduce_state.
  - constructor; reduce_state; try done.
    + intros _ _. split; [done|]. by repeat constructor.
    + intros e l Hin. cbn in Hin. in_cases Hin.
  - constructor; reduce_state; try done.
    intros e l Hin. cbn in Hin. in_cases Hin.
Qed.

Lemma conversation_invariant (c : call) (ins : list input) :
  invariant (fst (conversation c ins)) (snd (conversation c ins)).
Proof.
  unfold conversation. pose proof (request_invariant c) as H0.
  destruct (request c) as [s0 out0]. cbn [fst snd] in H0.
  pose proof (run_invariant c ins s0 out0 H0) as H.
  by destruct (run c ins s0).
Qed.

(** ** Terminal events *)

Lemma conversation_app (c : call) (ins1 ins2 : list input) :
  conversation c (ins1 ++ ins2)
  = let '(s, out) := conversation c ins1 in
    let '(s', out') := run c ins2 s in
    (s', out ++ out').
Proof.
  unfold conversation. destruct (request c) as [s0 out0].
  rewrite run_app. destruct (run c ins1 s0) as [s1 out1].
  destruct (run c ins2 s1) as [s2 out2]. by rewrite app_assoc.
Qed.

Lemma count_zero_Forall {A : Type} (p : A -> bool) (l : list A) :
  (forall x, In x l -> p x = false) -> count p l = 0%nat.
Proof.
  unfold count. induction l as [|y l IH]; cbn; [done|].
  intros H. rewrite (H y) by auto. apply IH. auto.
Qed.

Lemma settled_seen (l : list effect) (x : effect) :
  settled true l = true -> In x l ->
  isEmit x = false /\ isClear x = false /\ isClose x = false.
Proof.
  induction l as [|y l IH]; cbn; [done|].
  destruct (isEmit y || isClear y || isClose y) eqn:E; [done|].
  intros Hs [->|Hin]; [|by apply IH].
  by destruct (isEmit x), (isClear x), (isClose x).
Qed.

Lemma settled_after (pre post : list effect) (e : event) (x : effect) :
  settled false (pre ++ Emit e :: post) = true -> terminal e = true ->
  In x post ->
  isEmit x = false /\ isClear x = false /\ isClose x = false.
Proof.
  rewrite settled_app. intros [_ H]%andb_prop Ht. revert H. cbn.
  destruct (count isTerminal pre =? 0)%nat; cbn; [|done].
  rewrite Ht. apply settled_seen.
Qed.

Lemma findIndex_Some {A : Type} (p : A -> bool) (l : list A) (i : nat) :
  findIndex p l = Some i -> exists k, l !! i = Some k /\ p k = true.
Proof.
  revert i. induction l as [|x l IH]; intros i; cbn; [done|].
  destruct (p x) eqn:E.
  - intros [= <-]. by exists x.
  - destruct (findIndex p l) as [j|]; cbn; [|done].
    intros [= <-]. by apply IH.
Qed.

Lemma findIndex_None {A : Type} (p : A -> bool) (l : list A) :
  findIndex p l = None -> count p l = 0%nat.
Proof.
  unfold count. induction l as [|x l IH]; cbn; [done|].
  destruct (p x); [done|]. destruct (findIndex p l); [done|]. auto.
Qed.

Lemma deadline_timedOut (c : call) (s : conv) :
  timedOut c (deadline c s) s = true.
Proof. unfold timedOut, deadline. case_match; lia. Qed.

(** After [finish], the interval is stopped and no callback that would
    emit a terminal event is left. *)
Lemma finish_state (c : call) (s : conv) (out : list effect) :
  invariant s out ->
  let s' := fst (run c (finish c s) s) in
  timeoutInterval s' = false /\ count closing (pending s') = 0%nat.
Proof.
  intros [H1 H2 H3 _ _ _ _]. unfold finish.
  destruct s as [cl rs ex lm ti li pe]. reduce_state. destruct ti.
  - rewrite (H2 eq_refl) in *.
    pose proof (deadline_timedOut c (Conv false rs ex lm true li pe)) as Hd.
    unfold timedOut in Hd. reduce_state.
    cbn [run]. unfold step at 1. reduce_state. unfold_actions. reduce_state.
    destruct (lm =? 0); rewrite Hd; reduce_state;
      rewrite deferred_lookup, deferred_delete;
      split_cases; cbn; split; try done; lia.
  - destruct (findIndex closing pe) as [i|] eqn:Hi.
    + destruct (findIndex_Some _ _ _ Hi) as (k & Hk & Hc).
      pose proof (count_delete closing pe i k Hk) as Hd. rewrite Hc in Hd.
      cbn [run]. unfold step. reduce_state. rewrite Hk.
      destruct k as [| | |cb]; try discriminate Hc;
        [|destruct cb]; unfold_actions; reduce_state;
        split_cases; cbn; split; try done; lia.
    + cbn. split; [done|]. by apply findIndex_None.
Qed.

(** C1. In every conversation, whatever the environment does: at most one
    terminal event is emitted, and exactly one as soon as the interval is
    stopped and no callback that emits one is outstanding, which [finish]
    always brings about; nothing is emitted after the terminal event;
    each step of [_tearDown] (stopping the interval, closing the inbound
    channel) runs at most once, and if the conversation was torn down,
    before the terminal event; a frame delivered to a closed conversation
    changes nothing and emits nothing. *)
Theorem one_terminal_event (c : call) (ins : list input) :
  let s := fst (conversation c ins) in
  let out := snd (conversation c ins) in
  (count isTerminal out <= 1)%nat
  /\ (count isTerminal out = 1%nat
      <-> timeoutInterval s = false /\ count closing (pending s) = 0%nat)
  /\ count isTerminal (snd (conversation c (ins ++ finish c s))) = 1%nat
  /\ (count isClear out <= 1)%nat
  /\ (count isClose out <= 1)%nat
  /\ (forall pre e post,
        out = pre ++ Emit e :: post -> terminal e = true ->
        events post = []
        /\ count isClear post = 0%nat /\ count isClose post = 0%nat
        /\ (closed s = true ->
            count isClear pre = 1%nat /\ count isClose pre = 1%nat))
  /\ (forall now message,
        closed s = true -> step c (Deliver now message) s = (s, [])).
Proof.
  intros s out. pose proof (conversation_invariant c ins) as Hinv.
  fold s out in Hinv. destruct Hinv as [H1 H2 H3 H4 H5 H6 H7].
  split; [destruct (timeoutInterval s); lia|].
  split; [destruct (timeoutInterval s); split; [lia|intros [? ?]; done
          |lia|intros [? ?]; lia]|].
  split.
  { pose proof (conversation_invariant c (ins ++ finish c s)) as [G1 _ _ _ _ _ _].
    rewrite conversation_app in *. fold s out in G1 |- *.
    assert (Hs : invariant s out) by by constructor.
    pose proof (finish_state c s out Hs) as [F1 F2].
    destruct (conversation c ins) as [s' out'] eqn:E. subst s out. cbn [fst snd] in *.
    destruct (run c (finish c s') s') as [s2 out2]. cbn [fst snd] in *.
    rewrite F1, F2 in G1. exact G1. }
  split; [destruct (closed s); lia|].
  split; [destruct (closed s); lia|].
  split.
  - intros pre e post Hout Ht. rewrite Hout in H4, H5, H6.
    assert (Hq : forall x, In x post ->
              isEmit x = false /\ isClear x = false /\ isClose x = false)
      by (intros x; by apply (settled_after pre post e x)).
    assert (Hc1 : count isClear post = 0%nat)
      by (apply count_zero_Forall; intros x Hx; by apply Hq).
    assert (Hc2 : count isClose post = 0%nat)
      by (apply count_zero_Forall; intros x Hx; by apply Hq).
    split; [|split; [done|split; [done|]]].
    + clear -Hq. induction post as [|x post IH]; [done|].
      unfold events. cbn. destruct (Hq x) as [Hx _]; [by left|].
      destruct x; try discriminate Hx; cbn; apply IH; intros; apply Hq; by right.
    + intros Hcl. rewrite Hcl in H4, H5.
      change (Emit e :: post) with ([Emit e] ++ post) in H4, H5.
      rewrite !count_app in H4, H5. cbn in H4, H5. lia.
  - intros now message Hcl. unfold step, onData, cond, skip.
    rewrite Hcl. by destruct (listening s).
Qed.

(** ** A closed conversation *)

Lemma filter_delete_single {A : Type} (p : A -> bool) (l : list A) (i : nat)
    (k k0 : A) :
  l !! i = Some k -> p k = true -> List.filter p l = [k0] ->
  k = k0 /\ List.filter p (delete i l) = [].
Proof.
  intros Hk Hp. rewrite <- (take_drop_middle l i k Hk) at 1.
  rewrite delete_take_drop, !List.filter_app. cbn. rewrite Hp.
  destruct (List.filter p (take i l)) as [|a [|b l1]]; cbn.
  - intros [= -> ->]. done.
  - intros [=].
  - intros [=].
Qed.

Lemma filter_delete_other {A : Type} (p : A -> bool) (l : list A) (i : nat) (k : A) :
  l !! i = Some k -> p k = false ->
  List.filter p (delete i l) = List.filter p l.
Proof.
  intros Hk Hp. rewrite <- (take_drop_middle l i k Hk) at 2.
  rewrite delete_take_drop, !List.filter_app. cbn. by rewrite Hp.
Qed.

Lemma filter_snoc_other {A : Type} (p : A -> bool) (l : list A) (k : A) :
  p k = false -> List.filter p (l ++ [k]) = List.filter p l.
Proof. intros Hp. rewrite List.filter_app. cbn. by rewrite Hp, app_nil_r. Qed.

Lemma terminalOf_frozen (k : cont) (s s' : conv) :
  responses s' = responses s -> expecting s' = expecting s ->
  terminalOf k s' = terminalOf k s.
Proof.
  intros Hr He. unfold terminalOf, isEmpty_responses. by rewrite Hr, He.
Qed.

(** Running a teardown callback emits its terminal event, and only it. *)
Lemma resume_closing (c : call) (k : cont) (err : option error) (s : conv) :
  closing k = true ->
  fst (resume c k err s) = s /\ events (snd (resume c k err s)) = terminalOf k s.
Proof.
  intros Hk. destruct k as [| | |cb]; try discriminate Hk;
    [|destruct cb as [reason| |e]]; unfold_actions; unfold terminalOf.
  - done.
  - destruct err, (isEmpty_responses s); done.
  - by destruct err.
  - done.
Qed.

Lemma complete_closing (c : call) (j : nat) (k : cont) (err : option error)
    (s : conv) :
  pending s !! j = Some k -> closing k = true ->
  events (snd (step c (Complete j err) s)) = terminalOf k s.
Proof.
  intros Hj Hk. unfold step. rewrite Hj.
  destruct (resume_closing c k err (set_pending (delete j (pending s)) s) Hk)
    as [_ ->].
  by apply terminalOf_frozen.
Qed.

(** A step of a closed conversation leaves [closed], [responses] and
    [expecting] as they are, and emits nothing unless it runs an
    outstanding callback of a teardown, which emits its terminal event. *)
Lemma closed_step (c : call) (i : input) (s : conv) :
  closed s = true ->
  let s' := fst (step c i s) in
  let out := snd (step c i s) in
  closed s' = true /\ responses s' = responses s /\ expecting s' = expecting s
  /\ ((events out = []
       /\ List.filter closing (pending s') = List.filter closing (pending s))
      \/ (exists j k,
           pending s !! j = Some k /\ closing k = true
           /\ events out = terminalOf k s
           /\ List.filter closing (pending s')
              = List.filter closing (delete j (pending s)))).
Proof.
  intros Hcl. destruct s as [cl rs ex lm ti li pe]. reduce_state. subst cl.
  destruct i as [now | now m | i err]; unfold step; reduce_state.
  - unfold_actions. reduce_state. destruct ti; reduce_state; auto 6.
  - unfold_actions. reduce_state. destruct li; reduce_state; auto 6.
  - destruct (pe !! i) as [k|] eqn:Hk; reduce_state; [|auto 6].
    destruct k as [| | |cb]; [| | |destruct cb as [reason| |e]];
      unfold_actions; reduce_state; split_cases.
    all: repeat (split; [done|]).
    all: try (left; split; [done|]; by apply (filter_delete_other _ _ _ _ Hk)).
    all: right; eexists i, _; split; [exact Hk|]; split; [done|];
      unfold terminalOf, isEmpty_responses in *; reduce_state;
      repeat match goal with
             | H : bool_decide _ = _ |- _ => rewrite H
             end;
      done.
Qed.

(** A closed conversation with one teardown callback [k] outstanding
    emits, in all of its future, nothing or the one event of [k]. *)
Lemma closed_run (c : call) (ins : list input) (s : conv) (k : cont) :
  closed s = true -> List.filter closing (pending s) = [k] ->
  let s' := fst (run c ins s) in
  let out := snd (run c ins s) in
  closed s' = true /\ responses s' = responses s /\ expecting s' = expecting s
  /\ ((events out = [] /\ List.filter closing (pending s') = [k])
      \/ (events out = terminalOf k s /\ List.filter closing (pending s') = [])).
Proof.
  revert s. induction ins as [|i ins IH]; intros s Hcl Hk; cbn [run].
  - cbn. auto 6.
  - pose proof (closed_step c i s Hcl) as (H1 & H2 & H3 & H4). cbn zeta in *.
    destruct (step c i s) as [s1 out1]. cbn [fst snd] in *.
    destruct H4 as [[He Hf]|(j & k' & Hj & Hc & He & Hf)].
    + rewrite Hk in Hf. specialize (IH s1 H1 Hf).
      destruct (run c ins s1) as [s2 out2]. cbn [fst snd] in *.
      destruct IH as (I1 & I2 & I3 & I4).
      rewrite (terminalOf_frozen k s s1 H2 H3) in I4.
      rewrite events_app, He.
      repeat (split; [congruence|]). exact I4.
    + destruct (filter_delete_single _ _ _ _ _ Hj Hc Hk) as [-> Hnil].
      rewrite Hnil in Hf. clear IH.
      assert (Hrest : forall s1, closed s1 = true ->
                List.filter closing (pending s1) = [] ->
                closed (fst (run c ins s1)) = true
                /\ responses (fst (run c ins s1)) = responses s1
                /\ expecting (fst (run c ins s1)) = expecting s1
                /\ events (snd (run c ins s1)) = []
                /\ List.filter closing (pending (fst (run c ins s1))) = []).
      { clear. induction ins as [|i ins IH]; intros s Hcl Hnil; cbn [run].
        - by cbn.
        - pose proof (closed_step c i s Hcl) as (H1 & H2 & H3 & H4). cbn zeta in *.
          destruct (step c i s) as [s1 out1]. cbn [fst snd] in *.
          destruct H4 as [[He Hf]|(j & k' & Hj & Hc & He & Hf)].
          + rewrite Hnil in Hf. specialize (IH s1 H1 Hf).
            destruct (run c ins s1) as [s2 out2]. cbn [fst snd] in *.
            destruct IH as (I1 & I2 & I3 & I4 & I5).
            rewrite events_app, He, I4. repeat (split; [congruence|]). done.
          + exfalso. pose proof (take_drop_middle _ _ _ Hj) as Hsplit.
            rewrite <- Hsplit, List.filter_app in Hnil. cbn in Hnil.
            rewrite Hc in Hnil. by destruct (List.filter closing (take j (pending s))). }
      specialize (Hrest s1 H1 Hf).
      destruct (run c ins s1) as [s2 out2]. cbn [fst snd] in *.
      destruct Hrest as (I1 & I2 & I3 & I4 & I5).
      rewrite events_app, He, I4, app_nil_r.
      repeat (split; [congruence|]). right. done.
Qed.

(** ** Timeouts *)

Lemma count_zero_filter {A : Type} (p : A -> bool) (l : list A) :
  count p l = 0%nat -> List.filter p l = [].
Proof. unfold count. by destruct (List.filter p l). Qed.

(** An open conversation that is not the one of an empty [expect] has no
    teardown outstanding. *)
Lemma armed_no_closing (s : conv) (out : list effect) :
  invariant s out -> timeoutInterval s = true ->
  closed s = false /\ List.filter closing (pending s) = [].
Proof.
  intros [H1 H2 _ _ _ _ _] Ht. split; [by apply H2|].
  apply count_zero_filter. rewrite Ht in H1. lia.
Qed.

Lemma timeout_tick (c : call) (now : Z) (s : conv) :
  closed s = false -> timeoutInterval s = true -> timedOut c now s = true ->
  step c (Tick now) s
  = (Conv true (responses s) (expecting s) (lastMessage s) false (listening s)
       (pending s
        ++ [KClose (AfterTimeout
                      (if lastMessage s =? 0 then connectReason c else idleReason c))]),
     [ClearInterval; Close]).
Proof.
  intros Hcl Hti Hto. unfold timedOut in Hto.
  destruct s as [cl rs ex lm ti li pe]. reduce_state. subst cl ti.
  unfold_actions. reduce_state.
  destruct (lm =? 0); rewrite Hto; reflexivity.
Qed.

(** C5. When the interval finds a timeout, connect or idle, the
    conversation is torn down and the terminal event is chosen by the
    emptiness of [responses] alone: [error] with the keys of [expecting]
    if it is empty, [end] with [responses] and the keys of [expecting]
    otherwise, the keys as [_.keys] lists them. Which timeout it was shows
    in the text of the error only. No other event is emitted from then
    on, and the event is emitted when the close of the channel completes,
    with or without an error. The times and timeouts are safe integers. *)
Theorem timeout_event_by_responses (c : call) (ins0 : list input) (now : Z)
    (ins : list input) :
  let s := fst (conversation c ins0) in
  timeoutInterval s = true -> exactClock c now s = true ->
  timedOut c now s = true ->
  let reason := if lastMessage s =? 0 then connectReason c else idleReason c in
  let ev :=
    if bool_decide (responses s = ∅)
    then EvError (Error reason) (Some (keys (expecting s)))
    else EvEnd (responses s) (Some (keys (expecting s))) in
  (events (snd (run c (Tick now :: ins) s)) = []
   \/ events (snd (run c (Tick now :: ins) s)) = [ev])
  /\ forall err,
       events (snd (run c [Tick now; Complete (length (pending s)) err] s)) = [ev].
Proof.
  intros s Hti _ Hto reason ev.
  pose proof (conversation_invariant c ins0) as Hinv. fold s in Hinv.
  clearbody s.
  destruct (armed_no_closing _ _ Hinv Hti) as [Hcl Hnil].
  pose proof (timeout_tick c now s Hcl Hti Hto) as Hstep.
  pose (s1 := Conv true (responses s) (expecting s) (lastMessage s) false
                (listening s) (pending s ++ [KClose (AfterTimeout reason)])).
  change (step c (Tick now) s = (s1, [ClearInterval; Close])) in Hstep.
  assert (Hev : terminalOf (KClose (AfterTimeout reason)) s1 = [ev]).
  { unfold terminalOf, isEmpty_responses, ev. cbn. by case_bool_decide. }
  split.
  - cbn [run]. rewrite Hstep.
    pose proof (closed_run c ins s1 (KClose (AfterTimeout reason)) eq_refl) as Hrun.
    cbn zeta in Hrun. destruct (run c ins s1) as [s2 out2]. cbn [fst snd] in *.
    rewrite events_app. cbn. rewrite <- Hev.
    destruct Hrun as (_ & _ & _ & [[H _]|[H _]]); auto.
    subst s1. cbn. rewrite List.filter_app, Hnil. done.
  - intros err. cbn [run]. rewrite Hstep.
    pose proof (complete_closing c (length (pending s)) _ err s1
                  (deferred_lookup _ _) eq_refl) as Hc.
    destruct (step c (Complete (length (pending s)) err) s1) as [s2 out2].
    cbn [fst snd] in *. rewrite events_app, app_nil_r. cbn. congruence.
Qed.

(** C6. With no response recorded, a connect timeout ends the
    conversation with the error text
    [Did not receive a message within the connect timeout interval of <connect>ms]
    and an idle timeout with
    [Did not receive a message with the idle timeout interval of <idle>ms],
    where [<connect>] and [<idle>] are the timeouts in force, safe
    integers, printed in decimal. *)
Theorem timeout_error_texts (c : call) (s : conv) (now : Z) (err : option error) :
  closed s = false -> timeoutInterval s = true -> responses s = ∅ ->
  exactClock c now s = true -> timedOut c now s = true ->
  let out := snd (run c [Tick now; Complete (length (pending s)) err] s) in
  (lastMessage s = 0 ->
   events out
   = [EvError
        (Error ("Did not receive a message within the connect timeout interval of "
                +:+ format_s (connect c) +:+ "ms"))
        (Some (keys (expecting s)))])
  /\ (lastMessage s <> 0 ->
      events out
      = [EvError
           (Error ("Did not receive a message with the idle timeout interval of "
                   +:+ format_s (idle c) +:+ "ms"))
           (Some (keys (expecting s)))]).
Proof.
  intros Hcl Hti Hrs _ Hto out. subst out. cbn [run].
  rewrite (timeout_tick c now s Hcl Hti Hto).
  match goal with
  | |- context [step c (Complete ?n err) ?s1] =>
      pose proof (complete_closing c n _ err s1 (deferred_lookup _ _) eq_refl) as Hc;
      destruct (step c (Complete n err) s1) as [s2 out2]
  end.
  cbn [fst snd] in *. rewrite !events_app, app_nil_r. cbn [events omap event_of app].
  rewrite Hc. unfold terminalOf, isEmpty_responses. reduce_state.
  rewrite bool_decide_eq_true_2 by done.
  split; intros Hlm.
  - by rewrite Hlm.
  - apply Z.eqb_neq in Hlm. by rewrite Hlm.
Qed.

(** ** Failures of the subscription and of the request's publish *)

Lemma open_channel_callback (s : conv) (out : list effect) (i : nat) (k : cont) :
  invariant s out -> closed s = false -> pending s !! i = Some k ->
  k = KListen \/ k = KSend ->
  List.filter closing (delete i (pending s)) = [].
Proof.
  intros Hinv Hcl Hi Hk.
  destruct (timeoutInterval s) eqn:Hti.
  - destruct (armed_no_closing _ _ Hinv Hti) as [_ Hnil].
    rewrite (filter_delete_other _ _ _ _ Hi); [done|]. by destruct Hk as [-> | ->].
  - destruct Hinv as [_ _ H3 _ _ _ _]. destruct (H3 Hcl Hti) as [_ HF].
    pose proof (Forall_lookup_1 _ _ _ _ HF Hi) as <-.
    by destruct Hk.
Qed.

Lemma listen_failure_step (c : call) (s : conv) (i : nat) (e : error) :
  closed s = false -> pending s !! i = Some KListen ->
  step c (Complete i (Some e)) s
  = (Conv true (responses s) (expecting s) (lastMessage s) false true
       (delete i (pending s) ++ [KClose (AfterFatal e); KSend]),
     [Log LError "Failed to begin listening for broadcast replies";
      ClearInterval; Close; OnData;
      Send (RequestChannel (name c))
        (RequestFrame (broadcastId c) (hostname c) (data c))]).
Proof.
  intros Hcl Hi. unfold step. rewrite Hi.
  destruct s as [cl rs ex lm ti li pe]. reduce_state. subst cl.
  unfold_actions. reduce_state. by rewrite <- app_assoc.
Qed.

Lemma send_failure_step (c : call) (s : conv) (i : nat) (e : error) :
  closed s = false -> pending s !! i = Some KSend ->
  step c (Complete i (Some e)) s
  = (Conv true (responses s) (expecting s) (lastMessage s) false (listening s)
       (delete i (pending s) ++ [KClose (AfterFatal e)]),
     [Log LError "Failed to send a broadcast message broadcast message";
      ClearInterval; Close]).
Proof.
  intros Hcl Hi. unfold step. rewrite Hi.
  destruct s as [cl rs ex lm ti li pe]. reduce_state. subst cl.
  unfold_actions. reduce_state. done.
Qed.

Lemma two_deferred_first {A : Type} (l : list A) (a b : A) :
  (l ++ [a; b]) !! length l = Some a
  /\ delete (length l) (l ++ [a; b]) = l ++ [b].
Proof. split; [by apply list_lookup_middle|by apply delete_middle]. Qed.

Lemma two_deferred_second {A : Type} (l : list A) (a b : A) :
  (l ++ [a; b]) !! S (length l) = Some b
  /\ delete (S (length l)) (l ++ [a; b]) = l ++ [a].
Proof.
  change [a; b] with ([a] ++ [b]). rewrite app_assoc.
  replace (S (length l)) with (length (l ++ [a])) by (rewrite length_app; cbn; lia).
  split; [apply deferred_lookup|apply deferred_delete].
Qed.

(** C9. When the subscription to the reply channel fails in a
    conversation that is not closed, [request]'s callback logs the
    failure and tears the conversation down, and then goes on: it
    registers the handler of inbound frames and publishes the request
    frame. The error event is emitted when the close completes. Whatever
    comes next, and whatever the outcome of the publish, no event other
    than this one [error] is emitted. *)
Theorem listen_failure_falls_through (c : call) (ins0 : list input) (i : nat)
    (e : error) (ins : list input) :
  let s := fst (conversation c ins0) in
  closed s = false -> pending s !! i = Some KListen ->
  let s1 := fst (step c (Complete i (Some e)) s) in
  let j := length (delete i (pending s)) in
  snd (step c (Complete i (Some e)) s)
  = [Log LError "Failed to begin listening for broadcast replies";
     ClearInterval; Close; OnData;
     Send (RequestChannel (name c))
       (RequestFrame (broadcastId c) (hostname c) (data c))]
  /\ closed s1 = true /\ listening s1 = true
  /\ pending s1 = delete i (pending s) ++ [KClose (AfterFatal e); KSend]
  /\ (events (snd (run c ins s1)) = []
      \/ events (snd (run c ins s1)) = [EvError e None])
  /\ (forall perr cerr,
        events (snd (run c [Complete (S j) perr; Complete j cerr] s1))
        = [EvError e None]
        /\ events (snd (run c [Complete j cerr; Complete j perr] s1))
           = [EvError e None]).
Proof.
  intros s Hcl Hi s1 j.
  pose proof (conversation_invariant c ins0) as Hinv. fold s in Hinv.
  clearbody s.
  pose proof (open_channel_callback _ _ _ _ Hinv Hcl Hi (or_introl eq_refl)) as Hnil.
  pose proof (listen_failure_step c s i e Hcl Hi) as Hstep.
  subst s1. rewrite Hstep. cbn [fst snd]. clear Hstep.
  set (s1 := Conv true _ _ _ _ _ _).
  assert (Hf : List.filter closing (pending s1) = [KClose (AfterFatal e)]).
  { subst s1. cbn [pending]. rewrite List.filter_app, Hnil. done. }
  repeat (split; [done|]). split.
  - pose proof (closed_run c ins s1 _ eq_refl Hf) as (_ & _ & _ & H). cbn zeta in H.
    destruct H as [[H _]|[H _]]; auto.
  - intros perr cerr. subst s1 j. set (l := delete i (pending s)) in *.
    destruct (two_deferred_first l (KClose (AfterFatal e)) KSend) as [Hc1 Hc2].
    destruct (two_deferred_second l (KClose (AfterFatal e)) KSend) as [Hs1 Hs2].
    split.
    + cbn [run]. unfold step at 1. reduce_state. rewrite Hs1, Hs2.
      unfold resume at 1.
      destruct perr; unfold_actions; reduce_state.
      all: unfold step; reduce_state.
      all: rewrite deferred_lookup, deferred_delete.
      all: unfold_actions; reduce_state; done.
    + cbn [run]. unfold step at 1. reduce_state. rewrite Hc1, Hc2.
      unfold resume at 1. unfold_actions. reduce_state.
      unfold step. reduce_state. rewrite deferred_lookup, deferred_delete.
      destruct perr; unfold_actions; reduce_state; done.
Qed.

(** C4, as amended. When the subscription or the publish of the request
    fails in a conversation that is not closed, the conversation is torn
    down, and the [error] event emitted when the close completes carries
    one argument, the error of the failure: no list of expected hosts is
    passed. It is the only event emitted from the failure on. *)
Theorem fatal_error_event (c : call) (ins0 : list input) (i : nat) (k : cont)
    (e : error) (ins : list input) :
  let s := fst (conversation c ins0) in
  closed s = false -> pending s !! i = Some k -> k = KListen \/ k = KSend ->
  let s1 := fst (step c (Complete i (Some e)) s) in
  closed s1 = true
  /\ events (snd (step c (Complete i (Some e)) s)) = []
  /\ (events (snd (run c ins s1)) = []
      \/ events (snd (run c ins s1)) = [EvError e None])
  /\ exists j,
       pending s1 !! j = Some (KClose (AfterFatal e))
       /\ forall cerr, events (snd (step c (Complete j cerr) s1)) = [EvError e None].
Proof.
  intros s Hcl Hi Hk s1.
  pose proof (conversation_invariant c ins0) as Hinv. fold s in Hinv.
  clearbody s.
  pose proof (open_channel_callback _ _ _ _ Hinv Hcl Hi Hk) as Hnil.
  assert (Hs1 : closed s1 = true
                /\ events (snd (step c (Complete i (Some e)) s)) = []
                /\ List.filter closing (pending s1) = [KClose (AfterFatal e)]
                /\ exists j, pending s1 !! j = Some (KClose (AfterFatal e))).
  { subst s1. destruct Hk as [-> | ->].
    - rewrite (listen_failure_step c s i e Hcl Hi). cbn [fst snd pending closed].
      repeat (split; [done|]). split.
      + rewrite List.filter_app, Hnil. done.
      + exists (length (delete i (pending s))).
        apply (two_deferred_first _ _ KSend).
    - rewrite (send_failure_step c s i e Hcl Hi). cbn [fst snd pending closed].
      repeat (split; [done|]). split.
      + rewrite List.filter_app, Hnil. done.
      + exists (length (delete i (pending s))). apply deferred_lookup. }
  destruct Hs1 as (H1 & H2 & H3 & j & Hj).
  split; [done|]. split; [done|]. split.
  - pose proof (closed_run c ins s1 _ H1 H3) as (_ & _ & _ & H). cbn zeta in H.
    destruct H as [[H _]|[H _]]; auto.
  - exists j. split; [done|]. intros cerr.
    by rewrite (complete_closing c j _ cerr s1 Hj eq_refl).
Qed.

(** ** An empty [expect] *)

Lemma degenerate_done (c : call) (ins : list input) (ex : list string) (lm : Z) :
  snd (run c ins (Conv false ∅ ex lm false false [])) = [].
Proof.
  induction ins as [|i ins IH]; [done|].
  cbn [run]. unfold step. reduce_state.
  destruct i as [now|now m|i err]; rewrite ?lookup_nil;
    destruct (run c ins _) as [s2 out2]; exact IH.
Qed.

Lemma degenerate_run (c : call) (ins : list input) (ex : list string) (lm : Z) :
  snd (run c ins (Conv false ∅ ex lm false false [KNextTick])) = []
  \/ snd (run c ins (Conv false ∅ ex lm false false [KNextTick]))
     = [Emit (EvEnd ∅ None)].
Proof.
  induction ins as [|i ins IH]; [by left|].
  cbn [run]. unfold step. reduce_state.
  destruct i as [now|now m|[|i] err].
  - destruct (run c ins _) as [s2 out2]. exact IH.
  - destruct (run c ins _) as [s2 out2]. exact IH.
  - change ([KNextTick] !! 0%nat) with (Some KNextTick).
    change (delete 0%nat [KNextTick]) with (@nil cont).
    unfold_actions. reduce_state.
    pose proof (degenerate_done c ins ex lm) as H0. clear IH.
    destruct (run c ins _) as [s2 out2]. cbn [snd] in *. subst out2. by right.
  - change ([KNextTick] !! S i) with ((@nil cont) !! i). rewrite lookup_nil.
    destruct (run c ins _) as [s2 out2]. exact IH.
Qed.

(** C3, as amended. When [expect] is empty, [request] only schedules a
    function for the next tick: it emits nothing before it returns and
    uses no channel. When that function runs, [end] is emitted with the
    empty [responses] as its one argument; the list of expected hosts is
    not passed. Nothing else ever happens in the conversation. *)
Theorem empty_expect_ends_next_tick (c : call) (ins : list input) :
  expect c = [] ->
  request c = (Conv false ∅ [] 0 false false [KNextTick], [NextTick])
  /\ (forall err,
        snd (conversation c [Complete 0 err]) = [NextTick; Emit (EvEnd ∅ None)])
  /\ (snd (conversation c ins) = [NextTick]
      \/ snd (conversation c ins) = [NextTick; Emit (EvEnd ∅ None)]).
Proof.
  intros He.
  assert (Hr : request c = (Conv false ∅ [] 0 false false [KNextTick], [NextTick])).
  { unfold request. rewrite He. by rewrite bool_decide_eq_true_2. }
  split; [exact Hr|]. split.
  - intros err. unfold conversation. by rewrite Hr.
  - unfold conversation. rewrite Hr.
    pose proof (degenerate_run c ins [] 0) as H.
    destruct (run c ins _) as [s out]. cbn [snd] in *.
    destruct H as [-> | ->]; auto.
Qed.

(** ** Inbound frames *)

(** C10. A frame that reaches the handler of an open conversation sets
    [lastMessage] to the time of its arrival, whatever its type. A frame
    of a type other than [ack], [data] and [end] changes nothing else and
    emits nothing; arriving at a time other than [0], it still postpones
    the idle timeout: the interval finds no timeout until more than
    [idle] milliseconds have passed since it arrived. *)
Theorem frame_updates_lastMessage (c : call) (s : conv) (now : Z) (m : frame) :
  closed s = false -> listening s = true ->
  let s1 := fst (step c (Deliver now m) s) in
  lastMessage s1 = now
  /\ (type m <> "ack" -> type m <> "data" -> type m <> "end" ->
      step c (Deliver now m) s = (set_lastMessage now s, [])
      /\ responses s1 = responses s /\ expecting s1 = expecting s
      /\ (now <> 0 -> forall now',
            now' <= now + idle c -> step c (Tick now') s1 = (s1, []))).
Proof.
  intros Hcl Hli s1. split.
  - subst s1. unfold step. rewrite Hli.
    destruct s as [cl rs ex lm ti li pe]. reduce_state. subst cl.
    unfold_actions. reduce_state. split_cases; done.
  - intros Hack Hdata Hend.
    apply String.eqb_neq in Hack, Hdata, Hend.
    assert (Heq : step c (Deliver now m) s = (set_lastMessage now s, [])).
    { unfold step. rewrite Hli. unfold onData, cond. rewrite Hcl.
      unfold seq, modify. by rewrite Hack, Hdata, Hend. }
    subst s1. rewrite Heq. cbn [fst]. split; [done|].
    destruct s as [cl rs ex lm ti li pe]. unfold set_lastMessage. reduce_state.
    split; [done|]. split; [done|].
    intros Hnow now' Hle. unfold step. reduce_state.
    destruct ti; [|done]. subst cl. unfold_actions. reduce_state.
    apply Z.eqb_neq in Hnow. rewrite Hnow.
    by replace (now' >? now + idle c) with false by lia.
Qed.

(** ** The hosts still expected *)

(** The keys of [expecting] after an assignment, after a [delete], as
    [_.invert] leaves them, and as [_.keys] lists them. *)
Lemma elem_of_assign (h k : string) (o : list string) :
  h ∈ assign k o <-> h ∈ o \/ (h = k /\ k <> "__proto__").
Proof.
  unfold assign. case_bool_decide as Hin.
  - split; [auto|]. by intros [?|[-> _]].
  - destruct (String.eqb_spec k "__proto__") as [->|Hne].
    + split; [auto|]. by intros [?|[_ ?]].
    + rewrite elem_of_app, list_elem_of_singleton. split; intros [?|?]; auto.
      right. by destruct H.
Qed.

Lemma elem_of_remove (h k : string) (o : list string) :
  h ∈ remove k o <-> h ∈ o /\ h <> k.
Proof.
  unfold remove.
  rewrite !list_elem_of_In, filter_In, negb_true_iff, String.eqb_neq. done.
Qed.

Lemma elem_of_invert (h : string) (l : list string) :
  h ∈ invert l <-> h ∈ l /\ h <> "__proto__".
Proof.
  unfold invert.
  assert (H : forall o,
    h ∈ foldl (fun o h => assign h o) o l <-> h ∈ o \/ (h ∈ l /\ h <> "__proto__")).
  { induction l as [|k l IH]; intros o; cbn [foldl].
    - split; [auto|]. intros [?|[H _]]; [done|]. by apply elem_of_nil in H.
    - rewrite IH, elem_of_assign, elem_of_cons. split.
      + intros [[?|[-> ?]]|[? ?]]; auto.
      + intros [?|[[->|?] ?]]; auto. }
  rewrite H. split; [|auto]. intros [Hn|?]; [|done]. by apply elem_of_nil in Hn.
Qed.

Lemma elem_of_insertIndex (p q : N * string) (l : list (N * string)) :
  q ∈ insertIndex p l <-> q = p \/ q ∈ l.
Proof.
  induction l as [|r l IH]; cbn [insertIndex].
  - by rewrite list_elem_of_singleton, elem_of_nil; split; [left|intros [?|[]]].
  - destruct (fst p <=? fst r)%N.
    + by rewrite elem_of_cons.
    + rewrite !elem_of_cons, IH. split; intros [?|[?|?]]; auto.
Qed.

Lemma elem_of_sorted (q : N * string) (l : list (N * string)) :
  q ∈ foldr insertIndex [] l <-> q ∈ l.
Proof.
  induction l as [|p l IH]; cbn [foldr]; [done|].
  by rewrite elem_of_insertIndex, IH, elem_of_cons.
Qed.

Lemma elem_of_keys (h : string) (o : list string) :
  h ∈ keys o <-> h ∈ o.
Proof.
  unfold keys. rewrite elem_of_app, list_elem_of_fmap. split.
  - intros [[[n k] [-> Hin]]|Hin].
    + apply elem_of_sorted, list_elem_of_omap in Hin.
      destruct Hin as (k' & Hk' & Heq).
      destruct (arrayIndex k'); cbn in Heq; [|discriminate Heq].
      injection Heq as _ <-. done.
    + apply list_elem_of_In, filter_In in Hin. apply list_elem_of_In, Hin.
  - intros Hin. destruct (arrayIndex h) as [n|] eqn:Hn.
    + left. exists (n, h). split; [done|].
      apply elem_of_sorted, list_elem_of_omap. exists h. by rewrite Hn.
    + right. apply list_elem_of_In, filter_In. split; [by apply list_elem_of_In|].
      rewrite Hn. apply negb_true_iff, bool_decide_eq_false. by intros [? ?].
Qed.

(** A host that does not bear the name of a member of [Object.prototype]
    never gets one for its property of [responses]. *)
Lemma step_responses_array (c : call) (i : input) (s : conv) (h : string) :
  inherits h = false ->
  responses s !! h <> Some Member ->
  responses (fst (step c i s)) !! h <> Some Member.
Proof.
  intros Hh Hs.
  destruct s as [cl rs ex lm ti li pe]. reduce_state.
  destruct i as [now | now m | i err]; unfold step; reduce_state.
  - unfold_actions. reduce_state. split_cases; done.
  - unfold_actions. reduce_state.
    destruct li, cl; reduce_state; try done.
    unfold get.
    destruct (String.eqb_spec (host m) h) as [->|Hne].
    + rewrite Hh. destruct (rs !! h) as [[bs|]|] eqn:Hrs; [| done |];
        split_cases; rewrite ?lookup_insert_eq; congruence.
    + split_cases; rewrite ?lookup_insert_ne; congruence.
  - destruct (pe !! i) as [k|]; [|done].
    destruct k as [| | |cb]; [| | |destruct cb]; unfold_actions; reduce_state;
      split_cases; done.
Qed.

Lemma run_responses_array (c : call) (ins : list input) (s : conv) (h : string) :
  inherits h = false ->
  responses s !! h <> Some Member ->
  responses (fst (run c ins s)) !! h <> Some Member.
Proof.
  intros Hh. revert s. induction ins as [|i ins IH]; intros s Hs; [done|].
  cbn [run]. pose proof (step_responses_array c i s h Hh Hs) as H1.
  specialize (IH (fst (step c i s)) H1).
  destruct (step c i s) as [s1 out1]. cbn [fst] in *.
  by destruct (run c ins s1) as [s2 out2].
Qed.

(** How one input changes [expecting]: only a frame that reaches the body
    of the handler does, by its type; a [data] frame does unless line 188
    throws. *)
Lemma step_expecting (c : call) (i : input) (s : conv) :
  expecting (fst (step c i s))
  = match i with
    | Deliver _ m =>
        if listening s && negb (closed s) then
          if String.eqb (type m) "ack" then assign (host m) (expecting s)
          else if String.eqb (type m) "data" then
            match get (responses s) (host m) with
            | Some Member => expecting s
            | _ => assign (host m) (expecting s)
            end
          else if String.eqb (type m) "end" then remove (host m) (expecting s)
          else expecting s
        else expecting s
    | _ => expecting s
    end.
Proof.
  destruct s as [cl rs ex lm ti li pe].
  destruct i as [now | now m | i err]; unfold step; reduce_state.
  - unfold_actions. reduce_state. split_cases; done.
  - unfold_actions. reduce_state.
    destruct li, cl; reduce_state; try done.
    destruct (String.eqb (type m) "ack"); reduce_state; [by split_cases|].
    destruct (String.eqb (type m) "data"); reduce_state; [by split_cases|].
    destruct (String.eqb (type m) "end"); reduce_state; [by split_cases|done].
  - destruct (pe !! i) as [k|]; [|done].
    destruct k as [| | |cb]; [| | |destruct cb]; unfold_actions; reduce_state;
      split_cases; done.
Qed.

Lemma lastOf_app (h : string) (fs1 fs2 : list frame) :
  lastOf h (fs1 ++ fs2)
  = match lastOf h fs2 with
    | Some m => Some m
    | None => lastOf h fs1
    end.
Proof.
  unfold lastOf. rewrite List.filter_app.
  destruct (List.filter (concerns h) fs2) as [|m l] using rev_ind.
  - by rewrite app_nil_r.
  - by rewrite app_assoc, !last_snoc.
Qed.

Lemma run_expecting (c : call) (ins : list input) (s : conv) (h : string) :
  inherits h = false ->
  responses s !! h <> Some Member ->
  h ∈ expecting (fst (run c ins s))
  <-> match lastOf h (processed c ins s) with
      | Some m => type m <> "end"
      | None => h ∈ expecting s
      end.
Proof.
  intros Hh. revert s. induction ins as [|i ins IH]; intros s Hs; [done|].
  cbn [run processed]. rewrite lastOf_app.
  pose proof (step_expecting c i s) as Hex.
  specialize (IH (fst (step c i s)) (step_responses_array c i s h Hh Hs)).
  destruct (step c i s) as [s1 out1]. cbn [fst] in *.
  destruct (run c ins s1) as [s2 out2]. cbn [fst] in *.
  destruct (lastOf h (processed c ins s1)) as [m'|]; [exact IH|].
  etrans; [exact IH|]. rewrite Hex. clear IH Hex.
  assert (Hp : h <> "__proto__").
  { intros ->. by vm_compute in Hh. }
  destruct i as [now | now m | i err]; try done.
  destruct (listening s && negb (closed s)); [|done].
  unfold lastOf, concerns. cbn [List.filter].
  destruct (String.eqb_spec (host m) h) as [->|Hne]; cbn [andb].
  - destruct (String.eqb_spec (type m) "ack") as [Ha|Ha]; cbn [orb].
    { cbn. rewrite Ha. split; [done|]. intros _. apply elem_of_assign. auto. }
    destruct (String.eqb_spec (type m) "data") as [Hd|Hd]; cbn [orb].
    { cbn. rewrite Hd. split; [done|]. intros _.
      assert (Hg : get (responses s) h <> Some Member).
      { unfold get. rewrite Hh. by destruct (responses s !! h). }
      destruct (get (responses s) h) as [[bs|]|]; [|done|];
        apply elem_of_assign; auto. }
    destruct (String.eqb_spec (type m) "end") as [He|He]; cbn.
    + split; [|done]. by intros [_ Hn]%elem_of_remove.
    + done.
  - cbn.
    assert (Ha : h ∈ assign (host m) (expecting s) <-> h ∈ expecting s).
    { rewrite elem_of_assign. split; [|auto]. intros [?|[Heq _]]; [done|].
      by symmetry in Heq. }
    destruct (String.eqb (type m) "ack"); [exact Ha|].
    destruct (String.eqb (type m) "data").
    { by destruct (get (responses s) (host m)) as [[bs|]|]. }
    destruct (String.eqb (type m) "end"); [|done].
    rewrite elem_of_remove. split; [by intros [? _]|].
    intros Hin. split; [done|]. intros Heq. by symmetry in Heq.
Qed.

(** C8, as amended. Let [h] be a host whose name is not that of a member
    of [Object.prototype]. At any moment of a conversation, and so when
    it is torn down, [h] belongs to [expecting] if and only if the last
    [ack], [data] or [end] frame processed from it is an [ack] or a
    [data], or no such frame was processed from it and it was in the
    initial [expect]: an [end] removes the host until a later [ack] or
    [data] of the same host adds it again. The list passed with a
    terminal event, when one is passed, has these members. In particular
    an [ack] from such a host that was not expected adds it. *)
Theorem expecting_by_last_frame (c : call) (ins : list input) (h : string) :
  inherits h = false ->
  let s := fst (conversation c ins) in
  let fs := processed c ins (fst (request c)) in
  (h ∈ expecting s <-> awaited (expect c) fs h)
  /\ (forall e l,
        In (Emit e) (snd (conversation c ins)) -> expectingArg e = Some l ->
        (h ∈ l <-> awaited (expect c) fs h))
  /\ (forall now m,
        closed s = false -> listening s = true -> type m = "ack" -> host m = h ->
        h ∈ expecting (fst (step c (Deliver now m) s))).
Proof.
  intros Hh s fs.
  assert (Hp : h <> "__proto__").
  { intros ->. by vm_compute in Hh. }
  assert (H1 : h ∈ expecting s <-> awaited (expect c) fs h).
  { subst s fs. unfold conversation, awaited.
    assert (H0 : expecting (fst (request c)) = invert (expect c)
                 /\ responses (fst (request c)) = ∅).
    { unfold request. case_bool_decide; unfold_actions; reduce_state; done. }
    destruct H0 as [H0 Hr].
    pose proof (run_expecting c ins (fst (request c)) h Hh) as H.
    rewrite H0, Hr in H. specialize (H ltac:(by rewrite lookup_empty)).
    destruct (request c) as [s0 out0]. cbn [fst] in *.
    destruct (run c ins s0) as [s1 out1]. cbn [fst] in *.
    destruct (lastOf h (processed c ins s0)); [exact H|].
    rewrite elem_of_invert in H. etrans; [exact H|]. split; [by intros [? _]|done]. }
  split; [exact H1|]. split.
  - intros e l Hin Harg.
    pose proof (conversation_invariant c ins) as [_ _ _ _ _ _ H7].
    rewrite (H7 e l Hin Harg), elem_of_keys. exact H1.
  - intros now m Hcl Hli Hty Hho. rewrite step_expecting, Hli, Hcl, Hty, Hho. cbn.
    apply elem_of_assign. auto.
Qed.

(** C8, the claim refuted: [A] and [H] are expected; [H] sends an [end]
    and then a [data], and the conversation idles out. [H] is in the
    terminal [expecting], which [end] reports as [A; H], although an
    [end] frame of [H] was processed before the teardown. *)
Lemma expecting_after_end_refuted :
  let c := Call "test" VNull (Options (Some ["A"; "H"]) None) [] "self" "id0" 1000 in
  let ins :=
    [Complete 0 None;
     Deliver 1001 (Frame "end" "H" VUndefined);
     Deliver 1002 (Frame "data" "H" (VStr "late"));
     Tick 7000;
     Complete 1 None] in
  let s := fst (conversation c ins) in
  let fs := processed c ins (fst (request c)) in
  fs = [Frame "end" "H" VUndefined; Frame "data" "H" (VStr "late")]
  /\ expectingArg <$> last (events (snd (conversation c ins))) = Some (Some ["A"; "H"])
  /\ ~ ("H" ∈ expecting s <-> awaitedAsSpecified (expect c) fs "H").
Proof.
  cbv zeta. split; [by vm_compute|]. split; [by vm_compute|].
  intros [H _].
  assert (Hin : "H" ∈ expecting (fst (conversation
            (Call "test" VNull (Options (Some ["A"; "H"]) None) [] "self" "id0" 1000)
            [Complete 0 None;
             Deliver 1001 (Frame "end" "H" VUndefined);
             Deliver 1002 (Frame "data" "H" (VStr "late"));
             Tick 7000;
             Complete 1 None]))).
  { apply (bool_decide_unpack _). by vm_compute. }
  destruct (H Hin) as [_ Hno]. apply Hno.
  exists (Frame "end" "H" VUndefined). split; [|done].
  vm_compute. constructor.
Qed.

(** * Instances on concrete conversations *)

(** C3, the claim refuted: with [expect = []] the one event of the
    conversation is [end] with the empty [responses] alone; it is not
    [end] with a second argument [[]]. *)
Lemma empty_expect_end_arguments_refuted :
  let c := Call "test" VNull (Options (Some []) None) ["self"] "self" "id0" 1000 in
  let out := snd (conversation c [Complete 0 None]) in
  expect c = []
  /\ events out = [EvEnd ∅ None]
  /\ events out <> [EvEnd ∅ (Some [])].
Proof.
  cbv zeta. split; [reflexivity|]. split; [reflexivity|].
  vm_compute. intros H. discriminate H.
Qed.

(** C4, the claim refuted: [host0] is expected and the subscription, or
    the publish of the request, fails; the [error] event carries the
    error alone, and no [error] with a list of hosts is emitted. *)
Lemma fatal_error_expecting_refuted :
  let c := Call "test" VNull (Options (Some ["host0"]) None) [] "self" "id0" 1000 in
  let e := Error "transport failure" in
  let out1 := snd (conversation c [Complete 0 (Some e); Complete 0 None]) in
  let out2 := snd (conversation c [Complete 0 None; Complete 0 (Some e); Complete 0 None]) in
  events out1 = [EvError e None]
  /\ events out2 = [EvError e None]
  /\ forall l, ~ In (EvError e (Some l)) (events out1)
               /\ ~ In (EvError e (Some l)) (events out2).
Proof.
  cbv zeta. split; [reflexivity|]. split; [reflexivity|].
  intros l. split; vm_compute; intros [H|H]; try discriminate H; exact H.
Qed.

(** A subscription failure, the close completing, then the publish
    failing: a log entry follows the terminal event and nothing else. *)
Lemma one_terminal_event_witness :
  let c := Call "test" VNull (Options (Some ["host0"]) None) [] "self" "id0" 1000 in
  let e := Error "subscribe failed" in
  let ins := [Complete 0 (Some e); Complete 0 None;
              Complete 0 (Some (Error "publish failed"))] in
  let s := fst (conversation c ins) in
  let pre := [SetInterval; Listen (ReplyChannel "test" "id0");
              Log LError "Failed to begin listening for broadcast replies";
              ClearInterval; Close; OnData;
              Send (RequestChannel "test") (RequestFrame "id0" "self" VNull)] in
  let post := [Log LError "Failed to send a broadcast message broadcast message"] in
  snd (conversation c ins) = pre ++ Emit (EvError e None) :: post
  /\ closed s = true
  /\ (events post = []
      /\ count isClear post = 0%nat /\ count isClose post = 0%nat
      /\ count isClear pre = 1%nat /\ count isClose pre = 1%nat)
  /\ step c (Deliver 2000 (Frame "ack" "host0" VUndefined)) s = (s, []).
Proof.
  cbv zeta.
  pose proof (one_terminal_event
    (Call "test" VNull (Options (Some ["host0"]) None) [] "self" "id0" 1000)
    [Complete 0 (Some (Error "subscribe failed")); Complete 0 None;
     Complete 0 (Some (Error "publish failed"))]) as H.
  cbv zeta in H. destruct H as (_ & _ & _ & _ & _ & H6 & H7).
  split; [vm_compute; reflexivity|]. split; [vm_compute; reflexivity|]. split.
  - destruct (H6
      [SetInterval; Listen (ReplyChannel "test" "id0");
       Log LError "Failed to begin listening for broadcast replies";
       ClearInterval; Close; OnData;
       Send (RequestChannel "test") (RequestFrame "id0" "self" VNull)]
      (EvError (Error "subscribe failed") None)
      [Log LError "Failed to send a broadcast message broadcast message"])
      as (A1 & A2 & A3 & A4); [vm_compute; reflexivity|reflexivity|].
    destruct A4 as [A4 A5]; [vm_compute; reflexivity|].
    repeat split; assumption.
  - apply H7. vm_compute. reflexivity.
Defined.

Lemma empty_expect_ends_next_tick_witness :
  let c := Call "test" VNull (Options (Some []) None) ["self"] "self" "id0" 1000 in
  let ins := [Tick 9000; Complete 0 None; Complete 0 None] in
  expect c = []
  /\ request c = (Conv false ∅ [] 0 false false [KNextTick], [NextTick])
  /\ (forall err,
        snd (conversation c [Complete 0 err]) = [NextTick; Emit (EvEnd ∅ None)])
  /\ (snd (conversation c ins) = [NextTick]
      \/ snd (conversation c ins) = [NextTick; Emit (EvEnd ∅ None)]).
Proof.
  cbv zeta. split; [reflexivity|].
  apply (empty_expect_ends_next_tick
    (Call "test" VNull (Options (Some []) None) ["self"] "self" "id0" 1000)
    [Tick 9000; Complete 0 None; Complete 0 None]).
  reflexivity.
Defined.

Lemma fatal_error_event_witness :
  let c := Call "test" VNull (Options (Some ["host0"]) None) [] "self" "id0" 1000 in
  let e := Error "publish failed" in
  let s := fst (conversation c [Complete 0 None]) in
  let s1 := fst (step c (Complete 0 (Some e)) s) in
  let ins := [Deliver 1500 (Frame "ack" "host0" VUndefined); Complete 0 None] in
  closed s = false /\ pending s !! 0%nat = Some KSend
  /\ closed s1 = true
  /\ events (snd (step c (Complete 0 (Some e)) s)) = []
  /\ (events (snd (run c ins s1)) = []
      \/ events (snd (run c ins s1)) = [EvError e None]).
Proof.
  cbv zeta. split; [reflexivity|]. split; [reflexivity|].
  pose proof (fatal_error_event
    (Call "test" VNull (Options (Some ["host0"]) None) [] "self" "id0" 1000)
    [Complete 0 None] 0 KSend (Error "publish failed")
    [Deliver 1500 (Frame "ack" "host0" VUndefined); Complete 0 None]) as H.
  cbv zeta in H.
  destruct H as (H1 & H2 & H3 & _);
    [reflexivity|reflexivity|right; reflexivity|].
  repeat split; assumption.
Defined.

(** The test [times out with a connect timeout error when it receives no
    reply]: [expect = [self]], [connect = 10], no frame. *)
Lemma timeout_event_by_responses_witness :
  let c := Call "test" VNull
             (Options (Some ["self"]) (Some (TimeoutOptions (Some 10) None)))
             ["self"] "self" "id0" 1000 in
  let s := fst (conversation c []) in
  timeoutInterval s = true /\ exactClock c 1011 s = true
  /\ timedOut c 1011 s = true
  /\ forall err,
       events (snd (run c [Tick 1011; Complete (length (pending s)) err] s))
       = [EvError
            (Error "Did not receive a message within the connect timeout interval of 10ms")
            (Some ["self"])].
Proof.
  cbv zeta. split; [reflexivity|]. split; [reflexivity|]. split; [reflexivity|].
  pose proof (timeout_event_by_responses
    (Call "test" VNull
       (Options (Some ["self"]) (Some (TimeoutOptions (Some 10) None)))
       ["self"] "self" "id0" 1000) [] 1011 []) as H.
  cbv zeta in H. destruct H as [_ H]; [reflexivity|reflexivity|reflexivity|].
  intros err. rewrite (H err). vm_compute. reflexivity.
Defined.

Lemma timeout_error_texts_witness :
  let c := Call "test" VNull
             (Options (Some ["self"]) (Some (TimeoutOptions (Some 10) (Some 100))))
             ["self"] "self" "id0" 1000 in
  let s0 := fst (request c) in
  let s1 := fst (conversation c [Complete 0 None;
                                 Deliver 1005 (Frame "end" "other" VUndefined)]) in
  (closed s0 = false /\ timeoutInterval s0 = true /\ responses s0 = ∅
   /\ exactClock c 1011 s0 = true /\ timedOut c 1011 s0 = true
   /\ lastMessage s0 = 0)
  /\ (closed s1 = false /\ timeoutInterval s1 = true /\ responses s1 = ∅
      /\ exactClock c 1106 s1 = true /\ timedOut c 1106 s1 = true
      /\ lastMessage s1 <> 0)
  /\ events (snd (run c [Tick 1011; Complete (length (pending s0)) None] s0))
  = [EvError
       (Error "Did not receive a message within the connect timeout interval of 10ms")
       (Some ["self"])]
  /\ events (snd (run c [Tick 1106; Complete (length (pending s1)) None] s1))
     = [EvError
          (Error "Did not receive a message with the idle timeout interval of 100ms")
          (Some ["self"])].
Proof.
  cbv zeta. split; [by vm_compute|]. split; [by vm_compute|]. split.
  - pose proof (timeout_error_texts
      (Call "test" VNull
         (Options (Some ["self"]) (Some (TimeoutOptions (Some 10) (Some 100))))
         ["self"] "self" "id0" 1000)
      (Conv false ∅ ["self"] 0 true false [KListen]) 1011 None) as H.
    cbv zeta in H.
    destruct H as [H _];
      [reflexivity|reflexivity|reflexivity|reflexivity|reflexivity|].
    specialize (H eq_refl). vm_compute in H |- *. exact H.
  - pose proof (timeout_error_texts
      (Call "test" VNull
         (Options (Some ["self"]) (Some (TimeoutOptions (Some 10) (Some 100))))
         ["self"] "self" "id0" 1000)
      (Conv false ∅ ["self"] 1005 true true [KSend]) 1106 None) as H.
    cbv zeta in H.
    destruct H as [_ H];
      [reflexivity|reflexivity|reflexivity|reflexivity|reflexivity|].
    assert (Hne : 1005 <> 0) by lia.
    specialize (H Hne). vm_compute in H |- *. exact H.
Defined.

(** The test [waits for an unexpected host to finish if it received a
    response from it any way]: [self] is expected, [host1] acknowledges
    unasked, [self] ends, and the idle timeout reports [host1]. *)
Lemma expecting_by_last_frame_witness :
  let c := Call "test" VNull
             (Options (Some ["self"]) (Some (TimeoutOptions None (Some 100))))
             ["self"] "self" "id0" 1000 in
  let ins1 := [Complete 0 None; Deliver 1001 (Frame "ack" "self" VUndefined)] in
  let ins := ins1 ++ [Deliver 1002 (Frame "ack" "host1" VUndefined);
                      Deliver 1003 (Frame "end" "self" VUndefined);
                      Tick 1104; Complete 1 None] in
  let e := EvEnd (<["host1" := Bodies []]> (<["self" := Bodies []]> ∅))
             (Some ["host1"]) in
  inherits "host1" = false
  /\ In (Emit e) (snd (conversation c ins))
  /\ ("host1" ∈ ["host1"]
      <-> awaited (expect c) (processed c ins (fst (request c))) "host1")
  /\ closed (fst (conversation c ins1)) = false
  /\ listening (fst (conversation c ins1)) = true
  /\ "host1" ∈ expecting
       (fst (step c (Deliver 1002 (Frame "ack" "host1" VUndefined))
               (fst (conversation c ins1)))).
Proof.
  cbv zeta.
  assert (Hin : In (Emit (EvEnd (<["host1" := Bodies []]> (<["self" := Bodies []]> ∅))
                            (Some ["host1"])))
                  (snd (conversation
                     (Call "test" VNull
                        (Options (Some ["self"])
                           (Some (TimeoutOptions None (Some 100))))
                        ["self"] "self" "id0" 1000)
                     ([Complete 0 None; Deliver 1001 (Frame "ack" "self" VUndefined)]
                      ++ [Deliver 1002 (Frame "ack" "host1" VUndefined);
                          Deliver 1003 (Frame "end" "self" VUndefined);
                          Tick 1104; Complete 1 None])))).
  { vm_compute. do 13 right. left. reflexivity. }
  split; [reflexivity|]. split; [exact Hin|]. split.
  - pose proof (expecting_by_last_frame
      (Call "test" VNull
         (Options (Some ["self"]) (Some (TimeoutOptions None (Some 100))))
         ["self"] "self" "id0" 1000)
      ([Complete 0 None; Deliver 1001 (Frame "ack" "self" VUndefined)]
       ++ [Deliver 1002 (Frame "ack" "host1" VUndefined);
           Deliver 1003 (Frame "end" "self" VUndefined);
           Tick 1104; Complete 1 None]) "host1" eq_refl) as H.
    cbv zeta in H. destruct H as (_ & H & _).
    exact (H _ ["host1"] Hin eq_refl).
  - pose proof (expecting_by_last_frame
      (Call "test" VNull
         (Options (Some ["self"]) (Some (TimeoutOptions None (Some 100))))
         ["self"] "self" "id0" 1000)
      [Complete 0 None; Deliver 1001 (Frame "ack" "self" VUndefined)] "host1"
      eq_refl) as H.
    cbv zeta in H. destruct H as (_ & _ & H).
    split; [reflexivity|]. split; [reflexivity|].
    exact (H 1002 (Frame "ack" "host1" VUndefined) eq_refl eq_refl eq_refl eq_refl).
Defined.

Lemma listen_failure_falls_through_witness :
  let c := Call "test" VNull (Options (Some ["host0"]) None) [] "self" "id0" 1000 in
  let e := Error "subscribe failed" in
  let s := fst (conversation c [Tick 1010]) in
  let s1 := fst (step c (Complete 0 (Some e)) s) in
  closed s = false /\ pending s !! 0%nat = Some KListen
  /\ snd (step c (Complete 0 (Some e)) s)
     = [Log LError "Failed to begin listening for broadcast replies";
        ClearInterval; Close; OnData;
        Send (RequestChannel "test") (RequestFrame "id0" "self" VNull)]
  /\ closed s1 = true /\ listening s1 = true
  /\ pending s1 = [KClose (AfterFatal e); KSend]
  /\ (forall perr cerr,
        events (snd (run c [Complete 1 perr; Complete 0 cerr] s1))
        = [EvError e None]
        /\ events (snd (run c [Complete 0 cerr; Complete 0 perr] s1))
           = [EvError e None]).
Proof.
  cbv zeta. split; [reflexivity|]. split; [reflexivity|].
  pose proof (listen_failure_falls_through
    (Call "test" VNull (Options (Some ["host0"]) None) [] "self" "id0" 1000)
    [Tick 1010] 0 (Error "subscribe failed") []) as H.
  cbv zeta in H.
  destruct H as (H1 & H2 & H3 & H4 & _ & H6); [reflexivity|reflexivity|].
  repeat (split; [assumption|]). exact H6.
Defined.

Lemma frame_updates_lastMessage_witness :
  let c := Call "test" VNull (Options (Some ["host0"]) None) [] "self" "id0" 1000 in
  let s := fst (conversation c [Complete 0 None]) in
  let m := Frame "ping" "host0" VUndefined in
  let s1 := fst (step c (Deliver 1500 m) s) in
  closed s = false /\ listening s = true
  /\ lastMessage s1 = 1500
  /\ step c (Deliver 1500 m) s = (set_lastMessage 1500 s, [])
  /\ responses s1 = responses s /\ expecting s1 = expecting s
  /\ step c (Tick 6500) s1 = (s1, []).
Proof.
  cbv zeta. split; [reflexivity|]. split; [reflexivity|].
  pose proof (frame_updates_lastMessage
    (Call "test" VNull (Options (Some ["host0"]) None) [] "self" "id0" 1000)
    (fst (conversation
            (Call "test" VNull (Options (Some ["host0"]) None) [] "self" "id0" 1000)
            [Complete 0 None]))
    1500 (Frame "ping" "host0" VUndefined)) as H.
  cbv zeta in H. destruct H as [H1 H2]; [reflexivity|reflexivity|].
  destruct H2 as (H2 & H3 & H4 & H5); [discriminate|discriminate|discriminate|].
  repeat (split; [assumption|]).
  apply H5; [discriminate|]. vm_compute. discriminate.
Defined.

(** * Further properties of the listener *)

(** X1. Whatever the outcomes of the publish of the end frame and of the
    close of the reply channel, [end] publishes the end frame, then closes
    the channel (also when the publish failed), logs one warning per
    error, and calls the consumer's callback last, with the error of the
    close if there is one, else with that of the publish, else with
    nothing. *)
Theorem end_reports_outcome (hostname : string) (callback : Listener.callback)
    (e_pub e_close : option error) (s : handler) :
  let n := length (Listener.pending s) in
  Listener.run hostname
    [CallEnd callback; Listener.Complete n e_pub; Listener.Complete n e_close] s
  = (Handler true (Listener.pending s),
     Listener.Send (Frame "end" hostname VUndefined)
       :: warning endSendFailed e_pub
       ++ Listener.Close
       :: warning endCloseFailed e_close
       ++ invoke callback (reported e_pub e_close)).
Proof.
  cbn. rewrite deferred_lookup, deferred_delete.
  destruct e_pub as [e1|]; cbn; rewrite deferred_lookup, deferred_delete;
    destruct e_close as [e2|]; cbn; by rewrite app_nil_r.
Qed.

(** X2. On a handler that was not ended, [reply] publishes one data frame
    with this node's hostname and the body as given, and when the publish
    completes, a function given as callback is called with exactly the
    outcome of the publish; the handler is left as it was. *)
Theorem reply_reports_publish_outcome (hostname : string) (replyData : value)
    (k : nat) (err : option error) (s : handler) :
  Listener.closed s = false ->
  Listener.run hostname
    [CallReply replyData (Fn k);
     Listener.Complete (length (Listener.pending s)) err] s
  = (s, [Listener.Send (Frame "data" hostname replyData); Listener.Call k err]).
Proof.
  intros Hcl. cbn. unfold _reply. rewrite Hcl. cbn.
  rewrite deferred_lookup, deferred_delete. cbn. by destruct s; cbn in *; subst.
Qed.

Lemma reply_reports_publish_outcome_witness :
  Listener.closed (Handler false [KEndSent NoCallback]) = false
  /\ Listener.run "self"
       [CallReply (VStr "first") (Fn 3); Listener.Complete 1 (Some (Error "down"))]
       (Handler false [KEndSent NoCallback])
     = (Handler false [KEndSent NoCallback],
        [Listener.Send (Frame "data" "self" (VStr "first"));
         Listener.Call 3 (Some (Error "down"))]).
Proof.
  split; [reflexivity|].
  apply (reply_reports_publish_outcome "self" (VStr "first") 3
           (Some (Error "down")) (Handler false [KEndSent NoCallback])).
  reflexivity.
Defined.

Lemma dataThenEnd_app (ended : bool) (l1 l2 : list Listener.effect) :
  dataThenEnd ended (l1 ++ l2)
  = dataThenEnd ended l1 && dataThenEnd (ended || existsb isEndFrame l1) l2.
Proof.
  revert ended. induction l1 as [|x l1 IH]; intros ended; cbn.
  - by rewrite orb_false_r.
  - destruct (ended && isDataFrame x); [done|].
    rewrite IH. by destruct ended, (isEndFrame x).
Qed.

Lemma dataThenEnd_ended (l : list Listener.effect) (x : Listener.effect) :
  dataThenEnd true l = true -> In x l -> isDataFrame x = false.
Proof.
  induction l as [|y l IH]; cbn; [done|].
  destruct (isDataFrame y) eqn:E; [done|].
  intros Hs [->|Hin]; [done|by apply IH].
Qed.

(** One step of a handler: what it sends keeps data before end, [closed]
    becomes true exactly by an end frame, and it sends an end frame
    exactly when [end] is called. *)
Lemma listener_step_frames (hostname : string) (i : Listener.input) (s : handler) :
  let s1 := fst (Listener.step hostname i s) in
  let out1 := snd (Listener.step hostname i s) in
  dataThenEnd (Listener.closed s) out1 = true
  /\ Listener.closed s1 = Listener.closed s || existsb isEndFrame out1
  /\ length (List.filter isEndFrame out1)
     = length (List.filter isCallEnd [i]).
Proof.
  destruct s as [cl pe]. destruct i as [replyData cb | cb | i err]; cbn.
  - unfold _reply. cbn. destruct cb, cl; cbn; done.
  - by destruct cl.
  - destruct (pe !! i) as [k|]; cbn; [|by destruct cl].
    destruct k as [cb | cb | e cb], err, cb, cl; cbn; done.
Qed.

(** X3. In everything a handler publishes, whatever the consumer calls
    and whenever the channel layer completes: no data frame follows an
    end frame, and an end frame is published for every call of [end],
    which is not guarded by [closed]: a second call publishes a second
    end frame. *)
Theorem listener_data_precedes_end (hostname : string) (ins : list Listener.input)
    (s : handler) :
  let out := snd (Listener.run hostname ins s) in
  dataThenEnd (Listener.closed s) out = true
  /\ length (List.filter isEndFrame out) = length (List.filter isCallEnd ins)
  /\ (forall pre x post,
        out = pre ++ x :: post -> isEndFrame x = true ->
        forall y, In y post -> isDataFrame y = false).
Proof.
  assert (H : forall ins s,
            dataThenEnd (Listener.closed s) (snd (Listener.run hostname ins s)) = true
            /\ length (List.filter isEndFrame (snd (Listener.run hostname ins s)))
               = length (List.filter isCallEnd ins)).
  { clear. induction ins as [|i ins IH]; intros s; [done|].
    cbn [Listener.run].
    pose proof (listener_step_frames hostname i s) as (H1 & H2 & H3). cbn zeta in *.
    destruct (Listener.step hostname i s) as [s1 out1]. cbn [fst snd] in *.
    destruct (IH s1) as [I1 I2].
    destruct (Listener.run hostname ins s1) as [s2 out2]. cbn [fst snd] in *.
    rewrite dataThenEnd_app, H1, <- H2, I1. split; [done|].
    rewrite List.filter_app, length_app, H3, I2.
    change (i :: ins) with ([i] ++ ins). by rewrite List.filter_app, length_app. }
  intros out. destruct (H ins s) as [H1 H2]. fold out in H1, H2.
  split; [done|]. split; [done|].
  intros pre x post Hout Hx y Hy. rewrite Hout in H1.
  rewrite dataThenEnd_app in H1. apply andb_prop in H1 as [_ H1].
  cbn in H1. destruct (_ && isDataFrame x); [done|].
  rewrite Hx, orb_true_r in H1. by apply (dataThenEnd_ended post).
Qed.

Lemma listener_data_precedes_end_witness :
  let ins := [CallReply (VStr "first") NoCallback; CallEnd NoCallback;
              CallReply (VStr "second") (Fn 1); CallEnd NoCallback] in
  let out := snd (Listener.run "self" ins (Handler false [])) in
  sent out = [Frame "data" "self" (VStr "first");
              Frame "end" "self" VUndefined; Frame "end" "self" VUndefined]
  /\ forall y,
       In y [Listener.Log LError (Some afterEnd)
               "Rejecting attempt to send broadcast response frame after it was ended";
             Listener.Call 1 (Some afterEnd);
             Listener.Send (Frame "end" "self" VUndefined)] ->
       isDataFrame y = false.
Proof.
  cbv zeta. split; [reflexivity|].
  pose proof (listener_data_precedes_end "self"
    [CallReply (VStr "first") NoCallback; CallEnd NoCallback;
     CallReply (VStr "second") (Fn 1); CallEnd NoCallback]
    (Handler false [])) as H.
  cbv zeta in H. destruct H as (_ & _ & H).
  apply (H [Listener.Send (Frame "data" "self" (VStr "first"))]
           (Listener.Send (Frame "end" "self" VUndefined))); reflexivity.
Defined.

(** * Further properties of the requester *)

(** ** After the teardown *)

Lemma closed_step_inert (c : call) (i : input) (s : conv) :
  closed s = true ->
  let s1 := fst (step c i s) in
  let out1 := snd (step c i s) in
  s1 = set_pending (pending s1) s
  /\ (length (pending s1) <= length (pending s))%nat
  /\ count isChannelUse out1 = 0%nat
  /\ count isClear out1 = 0%nat
  /\ List.filter (fun e => negb (terminal e)) (events out1) = [].
Proof.
  intros Hcl. destruct s as [cl rs ex lm ti li pe]. reduce_state. subst cl.
  destruct i as [now | now m | i err]; unfold step; reduce_state.
  - unfold_actions. reduce_state. by destruct ti.
  - unfold_actions. reduce_state. by destruct li.
  - destruct (pe !! i) as [k|] eqn:Hk; reduce_state; [|done].
    assert (Hlen : (length (delete i pe) <= length pe)%nat).
    { rewrite length_delete by done. lia. }
    destruct k as [| | |cb]; [| | |destruct cb as [reason| |e]];
      unfold_actions; reduce_state; split_cases; done.
Qed.

(** X4. Once [closed] is set, nothing the environment does changes the
    conversation other than using up outstanding callbacks: [responses],
    [expecting], [lastMessage], the stopped interval and the handler stay
    as they are; no channel is subscribed, published to or closed, the
    interval is not cleared again, and no [ack], [data] or [hostEnd] is
    emitted. *)
Theorem closed_conversation_is_inert (c : call) (ins : list input) (s : conv) :
  closed s = true ->
  let s1 := fst (run c ins s) in
  let out := snd (run c ins s) in
  s1 = set_pending (pending s1) s
  /\ (length (pending s1) <= length (pending s))%nat
  /\ count isChannelUse out = 0%nat
  /\ count isClear out = 0%nat
  /\ List.filter (fun e => negb (terminal e)) (events out) = [].
Proof.
  revert s. induction ins as [|i ins IH]; intros s Hcl; cbn [run].
  - cbn. by destruct s.
  - pose proof (closed_step_inert c i s Hcl) as (H1 & H2 & H3 & H4 & H5).
    cbn zeta in *. destruct (step c i s) as [s1 out1]. cbn [fst snd] in *.
    assert (Hcl1 : closed s1 = true) by (rewrite H1; by destruct s).
    specialize (IH s1 Hcl1). cbn zeta in IH.
    destruct (run c ins s1) as [s2 out2]. cbn [fst snd] in *.
    destruct IH as (I1 & I2 & I3 & I4 & I5).
    split; [rewrite I1, H1; by destruct s|]. split; [lia|].
    rewrite !count_app, events_app, List.filter_app, H3, H4, H5, I3, I4, I5.
    done.
Qed.

Lemma closed_conversation_is_inert_witness :
  let c := Call "test" VNull
             (Options (Some ["self"]) (Some (TimeoutOptions (Some 10) None)))
             ["self"] "self" "id0" 1000 in
  let s := fst (conversation c [Tick 1011]) in
  let ins := [Complete 0 None; Deliver 1012 (Frame "ack" "self" VUndefined);
              Tick 9000; Complete 0 None] in
  closed s = true
  /\ fst (run c ins s) = set_pending [] s
  /\ events (snd (run c ins s))
     = [EvError
          (Error "Did not receive a message within the connect timeout interval of 10ms")
          (Some ["self"])]
  /\ count isChannelUse (snd (run c ins s)) = 0%nat.
Proof.
  cbv zeta. split; [reflexivity|].
  pose proof (closed_conversation_is_inert
    (Call "test" VNull
       (Options (Some ["self"]) (Some (TimeoutOptions (Some 10) None)))
       ["self"] "self" "id0" 1000)
    [Complete 0 None; Deliver 1012 (Frame "ack" "self" VUndefined);
     Tick 9000; Complete 0 None]
    (fst (conversation
       (Call "test" VNull
          (Options (Some ["self"]) (Some (TimeoutOptions (Some 10) None)))
          ["self"] "self" "id0" 1000) [Tick 1011]))) as H.
  cbv zeta in H. destruct H as (H1 & _ & H3 & _); [reflexivity|].
  split; [vm_compute; reflexivity|]. split; [vm_compute; reflexivity|]. exact H3.
Defined.

(** ** What the frames leave in the state *)

Lemma run_processed_app (c : call) (i : input) (ins : list input) (s : conv) :
  processed c (i :: ins) s
  = match i with
    | Deliver _ m => if listening s && negb (closed s) then [m] else []
    | _ => []
    end ++ processed c ins (fst (step c i s)).
Proof. reflexivity. Qed.

Lemma dataBodies_app (h : string) (fs1 fs2 : list frame) :
  dataBodies h (fs1 ++ fs2) = dataBodies h fs1 ++ dataBodies h fs2.
Proof. unfold dataBodies. by rewrite List.filter_app, fmap_app. Qed.

Lemma dataBodies_unopened (h : string) (fs : list frame) :
  existsb (opens h) fs = false -> dataBodies h fs = [].
Proof.
  unfold dataBodies, opens, carries. induction fs as [|m fs IH]; cbn; [done|].
  intros [H1 H2]%orb_false_elim.
  destruct (String.eqb (host m) h); cbn in *; [|by apply IH].
  apply orb_false_elim in H1 as [_ ->]. by apply IH.
Qed.

Lemma recorded_nil (h : string) (r : option property) :
  recorded h r [] = r.
Proof.
  unfold recorded, dataBodies. cbn.
  destruct r as [[bs|]|], (inherits h); by rewrite ?app_nil_r.
Qed.

Lemma recorded_app (h : string) (r : option property) (fs1 fs2 : list frame) :
  recorded h r (fs1 ++ fs2) = recorded h (recorded h r fs1) fs2.
Proof.
  unfold recorded. rewrite !existsb_app, dataBodies_app.
  destruct r as [[bs|]|], (inherits h) eqn:Hi.
  - by rewrite app_assoc.
  - by rewrite app_assoc.
  - by destruct (existsb (carries h) fs1), (existsb (carries h) fs2),
         (String.eqb h "__proto__").
  - by destruct (existsb (carries h) fs1), (existsb (carries h) fs2),
         (String.eqb h "__proto__").
  - destruct (existsb (carries h) fs1), (existsb (carries h) fs2),
      (String.eqb h "__proto__"); cbn; by rewrite ?Hi.
  - destruct (existsb (opens h) fs1) eqn:E1, (existsb (opens h) fs2) eqn:E2;
      cbn; rewrite ?Hi, ?E2; try done.
    by rewrite (dataBodies_unopened h fs1 E1).
Qed.

Lemma step_responses (c : call) (i : input) (s : conv) (h : string) :
  responses (fst (step c i s)) !! h
  = recorded h (responses s !! h)
      match i with
      | Deliver _ m => if listening s && negb (closed s) then [m] else []
      | _ => []
      end.
Proof.
  destruct s as [cl rs ex lm ti li pe].
  destruct i as [now | now m | i err]; unfold step; reduce_state.
  - rewrite recorded_nil. unfold_actions. reduce_state. split_cases; done.
  - destruct li, cl; reduce_state; cbn [andb negb]; rewrite ?recorded_nil;
      try done.
    unfold recorded, dataBodies, opens, carries.
    cbn [existsb List.filter]. rewrite !orb_false_r.
    unfold_actions. reduce_state. unfold get.
    destruct (String.eqb_spec (type m) "ack") as [Ha|Ha]; reduce_state.
    { rewrite Ha. cbn [String.eqb Ascii.eqb Bool.eqb orb andb].
      rewrite andb_true_r, andb_false_r. cbn [fmap list_fmap app andb].
      destruct (String.eqb_spec (host m) h) as [->|Hne].
      - destruct (rs !! h) as [[bs|]|] eqn:Hx, (inherits h); reduce_state;
          rewrite ?Hx, ?lookup_insert_eq, ?app_nil_r; done.
      - destruct (rs !! host m) as [x|], (inherits (host m)); reduce_state;
          rewrite ?lookup_insert_ne by done;
          destruct (rs !! h) as [[bs|]|], (inherits h);
          by rewrite ?app_nil_r. }
    destruct (String.eqb_spec (type m) "data") as [Hd|Hd]; reduce_state.
    { cbn [orb]. rewrite !andb_true_r.
      destruct (String.eqb_spec (host m) h) as [->|Hne]; cbn [fmap list_fmap andb].
      - destruct (rs !! h) as [[bs|]|] eqn:Hx, (inherits h); reduce_state;
          try (destruct (String.eqb h "__proto__")); reduce_state;
          rewrite ?Hx, ?lookup_insert_eq; done.
      - destruct (rs !! host m) as [[bs'|]|], (inherits (host m)); reduce_state;
          try (destruct (String.eqb (host m) "__proto__")); reduce_state;
          rewrite ?lookup_insert_ne by done;
          destruct (rs !! h) as [[bs|]|], (inherits h);
          by rewrite ?app_nil_r. }
    cbn [orb]. rewrite !andb_false_r. cbn [fmap list_fmap app andb].
    destruct (String.eqb (type m) "end"); reduce_state; split_cases;
      rewrite ?app_nil_r; congruence.
  - rewrite recorded_nil. destruct (pe !! i) as [k|]; [|done].
    destruct k as [| | |cb]; [| | |destruct cb]; unfold_actions; reduce_state;
      split_cases; done.
Qed.

Lemma run_responses (c : call) (ins : list input) (s : conv) (h : string) :
  responses (fst (run c ins s)) !! h
  = recorded h (responses s !! h) (processed c ins s).
Proof.
  revert s. induction ins as [|i ins IH]; intros s; [by rewrite recorded_nil|].
  rewrite run_processed_app, recorded_app, <- (step_responses c).
  cbn [run]. specialize (IH (fst (step c i s))).
  destruct (step c i s) as [s1 out1]. cbn [fst] in *.
  by destruct (run c ins s1).
Qed.

Lemma conversation_responses (c : call) (ins : list input) (h : string) :
  responses (fst (conversation c ins)) !! h
  = recorded h None (processed c ins (fst (request c))).
Proof.
  pose proof (run_responses c ins (fst (request c)) h) as H.
  assert (H0 : responses (fst (request c)) = ∅).
  { unfold request. case_bool_decide; unfold_actions; reduce_state; done. }
  rewrite H0, lookup_empty in H. unfold conversation.
  destruct (request c) as [s0 out0]. cbn [fst] in *.
  by destruct (run c ins s0).
Qed.

(** What [responses[h]] reads in a conversation. *)
Lemma conversation_get (c : call) (ins : list input) (h : string) :
  let fs := processed c ins (fst (request c)) in
  get (responses (fst (conversation c ins))) h
  = if inherits h then Some Member
    else if existsb (opens h) fs then Some (Bodies (dataBodies h fs)) else None.
Proof.
  intros fs. unfold get. rewrite conversation_responses. fold fs.
  unfold recorded. destruct (inherits h); [|by destruct (existsb (opens h) fs)].
  by destruct (existsb (carries h) fs && negb (String.eqb h "__proto__")).
Qed.

(** X5. At any moment of a conversation, [responses] has a property for
    a host whose name [Object.prototype] leaves free exactly when an
    [ack] or a [data] frame of that host was processed, and the property
    is the array of the bodies of the host's [data] frames in the order
    of their arrival; frames of other hosts, [end] frames and frames of
    unknown type leave it alone. Under the name of a member of
    [Object.prototype] there is never an array: the first [data] frame
    of such a host stores the member as a property, except under
    [__proto__], where nothing is ever stored. *)
Theorem responses_record_data_in_order (c : call) (ins : list input) (h : string) :
  let fs := processed c ins (fst (request c)) in
  responses (fst (conversation c ins)) !! h
  = if inherits h then
      if existsb (carries h) fs && negb (String.eqb h "__proto__")
      then Some Member else None
    else if existsb (opens h) fs then Some (Bodies (dataBodies h fs)) else None.
Proof.
  intros fs. rewrite conversation_responses. fold fs. unfold recorded.
  by destruct (inherits h).
Qed.

(** ** The time of the last frame *)

Lemma last_app_default {A : Type} (l1 l2 : list A) (d : A) :
  default d (last (l1 ++ l2)) = default (default d (last l1)) (last l2).
Proof.
  destruct l2 as [|x l2] using rev_ind.
  - by rewrite app_nil_r.
  - by rewrite app_assoc, !last_snoc.
Qed.

Lemma step_lastMessage (c : call) (i : input) (s : conv) :
  lastMessage (fst (step c i s))
  = default (lastMessage s)
      (last match i with
            | Deliver now _ => if listening s && negb (closed s) then [now] else []
            | _ => []
            end).
Proof.
  destruct s as [cl rs ex lm ti li pe].
  destruct i as [now | now m | i err]; unfold step; reduce_state.
  - unfold_actions. reduce_state. split_cases; done.
  - unfold_actions. reduce_state. destruct li, cl; reduce_state; try done.
    split_cases; done.
  - destruct (pe !! i) as [k|]; [|done].
    destruct k as [| | |cb]; [| | |destruct cb]; unfold_actions; reduce_state;
      split_cases; done.
Qed.

(** X6. [lastMessage] is the arrival time of the last frame that reached
    the body of the handler, of whatever type, and [0] while there was
    none: ticks, the completion of the subscription and of the publish,
    and frames that arrive before the handler is registered or after the
    teardown do not touch it. *)
Theorem lastMessage_is_last_arrival (c : call) (ins : list input) :
  lastMessage (fst (conversation c ins))
  = default 0 (last (arrivals c ins (fst (request c))))
  /\ length (arrivals c ins (fst (request c)))
     = length (processed c ins (fst (request c))).
Proof.
  assert (H : forall ins s,
            lastMessage (fst (run c ins s))
            = default (lastMessage s) (last (arrivals c ins s))
            /\ length (arrivals c ins s) = length (processed c ins s)).
  { clear. induction ins as [|i ins IH]; intros s; [done|].
    cbn [run arrivals processed]. rewrite last_app_default, <- (step_lastMessage c).
    destruct (IH (fst (step c i s))) as [I1 I2].
    destruct (step c i s) as [s1 out1]. cbn [fst] in *.
    destruct (run c ins s1) as [s2 out2]. cbn [fst] in *.
    split; [done|]. rewrite !length_app, I2.
    destruct i as [now|now m|j err]; try done.
    by destruct (listening s && negb (closed s)). }
  destruct (H ins (fst (request c))) as [H1 H2]. split; [|done].
  assert (H0 : lastMessage (fst (request c)) = 0).
  { unfold request. case_bool_decide; unfold_actions; reduce_state; done. }
  rewrite H0 in H1. unfold conversation.
  destruct (request c) as [s0 out0]. cbn [fst] in *.
  by destruct (run c ins s0).
Qed.

(** ** Events and frames *)

Lemma recorded_owned (h : string) (r : option property) (fs : list frame) :
  (forall x, r = Some x -> ownedBy h x) ->
  forall x, recorded h r fs = Some x -> ownedBy h x.
Proof.
  intros Hr x. unfold recorded.
  destruct r as [[bs|]|], (inherits h) eqn:Hi;
    try (pose proof (Hr _ eq_refl) as H0; cbn in H0; rewrite Hi in H0;
         discriminate H0);
    repeat case_match; intros Hx; try discriminate Hx;
    injection Hx as <-; exact Hi.
Qed.

Lemma step_owned (c : call) (i : input) (s : conv) :
  map_Forall ownedBy (responses s) ->
  map_Forall ownedBy (responses (fst (step c i s))).
Proof.
  intros Hs h x. rewrite step_responses. apply recorded_owned.
  intros y Hy. by apply Hs.
Qed.

(** What [responses[h]] reads when the properties are so kept. *)
Lemma get_owned (o : gmap string property) (h : string) :
  map_Forall ownedBy o ->
  match get o h with
  | Some Member => inherits h = true
  | _ => inherits h = false
  end.
Proof.
  intros Ho. unfold get. destruct (o !! h) as [x|] eqn:Hx.
  - pose proof (Ho h x Hx) as H. by destruct x.
  - by destruct (inherits h).
Qed.

Lemma step_events_frames (c : call) (i : input) (s : conv) :
  map_Forall ownedBy (responses s) ->
  omap eventFrame (events (snd (step c i s)))
  = omap normalize
      match i with
      | Deliver _ m => if listening s && negb (closed s) then [m] else []
      | _ => []
      end.
Proof.
  intros Hs. destruct s as [cl rs ex lm ti li pe]. reduce_state.
  destruct i as [now | now m | i err]; unfold step; reduce_state.
  - unfold_actions. reduce_state. split_cases; done.
  - destruct li, cl; reduce_state; try done.
    cbn [andb negb omap list_omap]. unfold normalize.
    pose proof (get_owned rs (host m) Hs) as Hg.
    unfold_actions. reduce_state.
    destruct (String.eqb (type m) "ack"); reduce_state; [by split_cases|].
    destruct (String.eqb (type m) "data"); reduce_state.
    { destruct (get rs (host m)) as [[bs|]|]; rewrite Hg; reduce_state;
        by split_cases. }
    destruct (String.eqb (type m) "end"); reduce_state; by split_cases.
  - destruct (pe !! i) as [k|]; [|done].
    destruct k as [| | |cb]; [| | |destruct cb]; unfold_actions; reduce_state;
      split_cases; done.
Qed.

(** X7. The [ack], [data] and [hostEnd] events of a conversation answer
    one to one, and in the same order, to the [ack], [data] and [end]
    frames that were processed: each carries the host of its frame, and
    [data] its body; a frame of another type gives no event, and the
    terminal event answers to no frame. The one exception is a [data]
    frame of a host that bears the name of a member of [Object.prototype]:
    it is processed and gives no event. *)
Theorem events_follow_frames (c : call) (ins : list input) :
  omap eventFrame (events (snd (conversation c ins)))
  = omap normalize (processed c ins (fst (request c))).
Proof.
  assert (H : forall ins s,
            map_Forall ownedBy (responses s) ->
            omap eventFrame (events (snd (run c ins s)))
            = omap normalize (processed c ins s)).
  { clear. induction ins as [|i ins IH]; intros s Hs; [done|].
    cbn [run processed]. rewrite omap_app, <- (step_events_frames c) by done.
    specialize (IH (fst (step c i s)) (step_owned c i s Hs)).
    destruct (step c i s) as [s1 out1]. cbn [fst snd] in *.
    destruct (run c ins s1) as [s2 out2]. cbn [fst snd] in *.
    by rewrite events_app, omap_app, IH. }
  assert (H0 : events (snd (request c)) = [] /\ responses (fst (request c)) = ∅).
  { unfold request. case_bool_decide; unfold_actions; reduce_state; done. }
  destruct H0 as [H0 Hr].
  specialize (H ins (fst (request c))). rewrite Hr in H.
  specialize (H (map_Forall_empty _)). unfold conversation.
  destruct (request c) as [s0 out0]. cbn [fst snd] in *.
  destruct (run c ins s0) as [s1 out1]. cbn [fst snd] in *.
  by rewrite events_app, H0.
Qed.

(** X8. When the [end] frame of a host is processed, the [hostEnd] event
    carries what [responses[host]] is at that moment: the bodies of the
    host's [data] frames processed so far, in order, or nothing at all if
    the host never sent an [ack] or a [data]; for a host that bears the
    name of a member of [Object.prototype], that member. It is the only
    event emitted in that turn. *)
Theorem hostEnd_carries_bodies (c : call) (ins : list input) (now : Z) (m : frame) :
  let s := fst (conversation c ins) in
  let fs := processed c ins (fst (request c)) in
  closed s = false -> listening s = true -> type m = "end" ->
  events (snd (step c (Deliver now m) s))
  = [EvHostEnd (host m)
       (if inherits (host m) then Some Member
        else if existsb (opens (host m)) fs
             then Some (Bodies (dataBodies (host m) fs))
             else None)].
Proof.
  intros s fs Hcl Hli Hty.
  pose proof (conversation_get c ins (host m)) as Hr.
  fold s fs in Hr. cbn zeta in Hr. rewrite <- Hr.
  clearbody s. clear Hr. destruct s as [cl rs ex lm ti li pe].
  reduce_state. subst cl li. unfold step. reduce_state.
  unfold_actions. reduce_state. rewrite Hty. cbn [String.eqb Ascii.eqb Bool.eqb].
  reduce_state. by split_cases.
Qed.

Lemma hostEnd_carries_bodies_witness :
  let c := Call "test" VNull (Options (Some ["self"; "host1"]) None) [] "self" "id0" 1000 in
  let ins := [Complete 0 None;
              Deliver 1001 (Frame "data" "self" (VStr "a"));
              Deliver 1002 (Frame "data" "host1" (VStr "x"));
              Deliver 1003 (Frame "data" "self" (VStr "b"))] in
  let s := fst (conversation c ins) in
  closed s = false /\ listening s = true
  /\ events (snd (step c (Deliver 1004 (Frame "end" "self" VUndefined)) s))
     = [EvHostEnd "self" (Some (Bodies [VStr "a"; VStr "b"]))]
  /\ events (snd (step c (Deliver 1004 (Frame "end" "host2" VUndefined)) s))
     = [EvHostEnd "host2" None]
  /\ events (snd (step c (Deliver 1004 (Frame "end" "valueOf" VUndefined)) s))
     = [EvHostEnd "valueOf" (Some Member)].
Proof.
  cbv zeta. split; [reflexivity|]. split; [reflexivity|]. split; [|split].
  - rewrite (hostEnd_carries_bodies
      (Call "test" VNull (Options (Some ["self"; "host1"]) None) [] "self" "id0" 1000)
      [Complete 0 None;
       Deliver 1001 (Frame "data" "self" (VStr "a"));
       Deliver 1002 (Frame "data" "host1" (VStr "x"));
       Deliver 1003 (Frame "data" "self" (VStr "b"))]
      1004 (Frame "end" "self" VUndefined)); reflexivity.
  - rewrite (hostEnd_carries_bodies
      (Call "test" VNull (Options (Some ["self"; "host1"]) None) [] "self" "id0" 1000)
      [Complete 0 None;
       Deliver 1001 (Frame "data" "self" (VStr "a"));
       Deliver 1002 (Frame "data" "host1" (VStr "x"));
       Deliver 1003 (Frame "data" "self" (VStr "b"))]
      1004 (Frame "end" "host2" VUndefined)); reflexivity.
  - rewrite (hostEnd_carries_bodies
      (Call "test" VNull (Options (Some ["self"; "host1"]) None) [] "self" "id0" 1000)
      [Complete 0 None;
       Deliver 1001 (Frame "data" "self" (VStr "a"));
       Deliver 1002 (Frame "data" "host1" (VStr "x"));
       Deliver 1003 (Frame "data" "self" (VStr "b"))]
      1004 (Frame "end" "valueOf" VUndefined)); reflexivity.
Defined.

(** ** A host named as a member of [Object.prototype] *)

(** X16. A [data] frame of a host that bears the name of a member of
    [Object.prototype], processed in an open conversation: the handler
    records the time of arrival, logs the frame, stores the member as the
    host's property of [responses] (nothing under [__proto__]) and throws;
    no event is emitted and [expecting] is left as it was. *)
Theorem data_of_prototype_name_throws (c : call) (ins : list input) (now : Z)
    (m : frame) :
  let s := fst (conversation c ins) in
  closed s = false -> listening s = true ->
  type m = "data" -> inherits (host m) = true ->
  step c (Deliver now m) s
  = (set_responses
       (if String.eqb (host m) "__proto__" then responses s
        else <[host m := Member]> (responses s))
       (set_lastMessage now s),
     [Log LTrace "Received broadcast data from a host"; ThrowTypeError]).
Proof.
  intros s Hcl Hli Hty Hh.
  pose proof (conversation_get c ins (host m)) as Hg.
  fold s in Hg. cbn zeta in Hg. rewrite Hh in Hg.
  clearbody s. destruct s as [cl rs ex lm ti li pe].
  reduce_state. subst cl li. unfold step. reduce_state.
  unfold_actions. reduce_state. rewrite Hty.
  cbn [String.eqb Ascii.eqb Bool.eqb]. reduce_state. rewrite Hg.
  by destruct (String.eqb (host m) "__proto__").
Qed.

Lemma data_of_prototype_name_throws_witness :
  let c := Call "test" VNull (Options (Some ["constructor"]) None) [] "self" "id0" 1000 in
  let ins := [Complete 0 None; Deliver 1001 (Frame "ack" "constructor" VUndefined)] in
  let s := fst (conversation c ins) in
  let m := Frame "data" "constructor" (VStr "a") in
  (closed s = false /\ listening s = true /\ inherits "constructor" = true)
  /\ responses s = ∅ /\ expecting s = ["constructor"]
  /\ step c (Deliver 1002 m) s
     = (Conv false {["constructor" := Member]} ["constructor"] 1002 true true [KSend],
        [Log LTrace "Received broadcast data from a host"; ThrowTypeError]).
Proof.
  cbv zeta. split; [by vm_compute|]. split; [by vm_compute|].
  split; [by vm_compute|].
  rewrite (data_of_prototype_name_throws
    (Call "test" VNull (Options (Some ["constructor"]) None) [] "self" "id0" 1000)
    [Complete 0 None; Deliver 1001 (Frame "ack" "constructor" VUndefined)]
    1002 (Frame "data" "constructor" (VStr "a")));
    [by vm_compute|reflexivity|reflexivity|reflexivity|reflexivity].
Defined.

(** ** Completion *)

Lemma remove_nil (o : list string) (h : string) :
  remove h o = [] <-> o ⊆ [h].
Proof.
  split.
  - intros H x Hx. apply list_elem_of_singleton.
    destruct (decide (x = h)) as [Heq|Hne]; [done|]. exfalso.
    apply (elem_of_nil x). rewrite <- H. by apply elem_of_remove.
  - intros H. destruct (remove h o) as [|x l] eqn:Hr; [done|]. exfalso.
    assert (Hx : x ∈ remove h o) by (rewrite Hr; constructor).
    apply elem_of_remove in Hx as [Hx Hne]. apply Hne.
    by apply list_elem_of_singleton, H.
Qed.

(** X9. Processing the [end] frame of a host in an open conversation
    completes the conversation exactly when no other host is expected:
    then it is torn down, and when the close completes, with or without
    an error, [end] is emitted with [responses] alone. If another host is
    still expected, the host is removed from [expecting] and the
    conversation stays as it was, open and with nothing outstanding
    added. The [hostEnd] event carries what [responses[host]] reads. *)
Theorem end_of_last_host_completes (c : call) (s : conv) (now : Z) (m : frame)
    (cerr : option error) :
  closed s = false -> listening s = true -> type m = "end" ->
  (expecting s ⊆ [host m] ->
   snd (step c (Deliver now m) s)
   = [Log LTrace "Received broadcast end from a host";
      Emit (EvHostEnd (host m) (get (responses s) (host m))); ClearInterval; Close]
   /\ closed (fst (step c (Deliver now m) s)) = true
   /\ events (snd (run c [Deliver now m; Complete (length (pending s)) cerr] s))
      = [EvHostEnd (host m) (get (responses s) (host m)); EvEnd (responses s) None])
  /\ (~ expecting s ⊆ [host m] ->
      step c (Deliver now m) s
      = (set_expecting (remove (host m) (expecting s)) (set_lastMessage now s),
         [Log LTrace "Received broadcast end from a host";
          Emit (EvHostEnd (host m) (get (responses s) (host m)))])).
Proof.
  intros Hcl Hli Hty.
  destruct s as [cl rs ex lm ti li pe]. reduce_state. subst cl li.
  assert (Hstep : step c (Deliver now m) (Conv false rs ex lm ti true pe)
            = if bool_decide (remove (host m) ex = [])
              then (Conv true rs (remove (host m) ex) now false true
                      (pe ++ [KClose AfterCompletion]),
                    [Log LTrace "Received broadcast end from a host";
                     Emit (EvHostEnd (host m) (get rs (host m)));
                     ClearInterval; Close])
              else (Conv false rs (remove (host m) ex) now ti true pe,
                    [Log LTrace "Received broadcast end from a host";
                     Emit (EvHostEnd (host m) (get rs (host m)))])).
  { unfold step. reduce_state. unfold_actions. reduce_state. rewrite Hty.
    cbn [String.eqb Ascii.eqb Bool.eqb]. reduce_state.
    unfold isEmpty_expecting. reduce_state. by case_bool_decide. }
  split.
  - intros Hsub. apply remove_nil in Hsub.
    cbn [run]. rewrite Hstep, bool_decide_eq_true_2 by done. cbn [fst snd].
    split; [done|]. split; [done|].
    unfold step. reduce_state. rewrite deferred_lookup, deferred_delete.
    unfold_actions. reduce_state. by destruct cerr.
  - intros Hsub. rewrite Hstep, bool_decide_eq_false_2; [done|].
    intros H. by apply Hsub, remove_nil.
Qed.

Lemma end_of_last_host_completes_witness :
  let c := Call "test" VNull (Options (Some ["self"; "host1"]) None) [] "self" "id0" 1000 in
  let s := fst (conversation c [Complete 0 None;
                                Deliver 1001 (Frame "ack" "self" VUndefined)]) in
  let s1 := fst (step c (Deliver 1002 (Frame "end" "self" VUndefined)) s) in
  closed s = false /\ listening s = true
  /\ closed s1 = false /\ expecting s1 = ["host1"]
  /\ expecting s1 ⊆ ["host1"]
  /\ events (snd (run c [Deliver 1003 (Frame "end" "host1" VUndefined);
                         Complete (length (pending s1)) None] s1))
     = [EvHostEnd "host1" None; EvEnd (<["self" := Bodies []]> ∅) None].
Proof.
  cbv zeta. split; [reflexivity|]. split; [reflexivity|].
  pose proof (end_of_last_host_completes
    (Call "test" VNull (Options (Some ["self"; "host1"]) None) [] "self" "id0" 1000)
    (fst (conversation
       (Call "test" VNull (Options (Some ["self"; "host1"]) None) [] "self" "id0" 1000)
       [Complete 0 None; Deliver 1001 (Frame "ack" "self" VUndefined)]))
    1002 (Frame "end" "self" VUndefined) None eq_refl eq_refl eq_refl) as [_ H1].
  assert (Hsub : ["host1"] ⊆ ["host1"]) by done.
  split; [vm_compute; reflexivity|].
  split; [vm_compute; reflexivity|].
  split; [exact Hsub|].
  pose proof (end_of_last_host_completes
    (Call "test" VNull (Options (Some ["self"; "host1"]) None) [] "self" "id0" 1000)
    (Conv false (<["self" := Bodies []]> ∅) ["host1"] 1002 true true [KSend])
    1003 (Frame "end" "host1" VUndefined) None eq_refl eq_refl eq_refl) as [H2 _].
  destruct (H2 Hsub) as (_ & _ & H3). vm_compute in H3 |- *. exact H3.
Defined.

(** ** The interval *)

(** X10. In an open conversation with the interval armed, a tick tears
    the conversation down exactly when its deadline has passed, and does
    nothing at all otherwise. Before the first frame the deadline is
    [start + connect], and [idle] plays no part; after a frame it is
    [lastMessage + idle], however long ago [start + connect] has passed.
    Both comparisons are strict: a tick at the deadline itself does
    nothing. *)
Theorem tick_acts_past_deadline_only (c : call) (s : conv) (now : Z) :
  closed s = false -> timeoutInterval s = true ->
  let deadline := if lastMessage s =? 0 then start c + connect c
                  else lastMessage s + idle c in
  (now <= deadline -> step c (Tick now) s = (s, []))
  /\ (deadline < now ->
      closed (fst (step c (Tick now) s)) = true
      /\ snd (step c (Tick now) s) = [ClearInterval; Close]).
Proof.
  intros Hcl Hti deadline. split.
  - intros Hle. destruct s as [cl rs ex lm ti li pe]. reduce_state. subst cl ti.
    unfold step. reduce_state. unfold_actions. reduce_state. subst deadline.
    reduce_state. destruct (lm =? 0); reduce_state.
    + by replace (now >? start c + connect c) with false by lia.
    + by replace (now >? lm + idle c) with false by lia.
  - intros Hlt. rewrite (timeout_tick c now s Hcl Hti); [done|].
    unfold timedOut. subst deadline. destruct (lastMessage s =? 0); lia.
Qed.

Lemma tick_acts_past_deadline_only_witness :
  let c := Call "test" VNull
             (Options (Some ["self"]) (Some (TimeoutOptions (Some 10) (Some 100))))
             ["self"] "self" "id0" 1000 in
  let s0 := fst (request c) in
  let s1 := fst (conversation c [Complete 0 None;
                                 Deliver 1005 (Frame "ack" "self" VUndefined)]) in
  step c (Tick 1010) s0 = (s0, [])
  /\ closed (fst (step c (Tick 1011) s0)) = true
  /\ step c (Tick 1105) s1 = (s1, [])
  /\ closed (fst (step c (Tick 1106) s1)) = true.
Proof.
  cbv zeta.
  pose proof (tick_acts_past_deadline_only
    (Call "test" VNull
       (Options (Some ["self"]) (Some (TimeoutOptions (Some 10) (Some 100))))
       ["self"] "self" "id0" 1000)) as H.
  split; [apply (H _ 1010); [reflexivity|reflexivity|vm_compute; discriminate]|].
  split; [apply (H _ 1011); [reflexivity|reflexivity|vm_compute; reflexivity]|].
  split; [apply (H _ 1105); [reflexivity|reflexivity|vm_compute; discriminate]|].
  apply (H _ 1106); [reflexivity|reflexivity|vm_compute; reflexivity].
Defined.

Lemma request_armed (c : call) :
  expect c <> [] ->
  request c
  = (Conv false ∅ (invert (expect c)) 0 true false [KListen],
     [SetInterval; Listen (ReplyChannel (name c) (broadcastId c))]).
Proof.
  intros Hne. unfold request. rewrite bool_decide_eq_false_2 by done.
  by unfold_actions.
Qed.

(** X11. A connect timeout given as [0], like one that is not given, is
    replaced by 5000 ms: with no frame arriving, the tick at
    [start + 5000] does nothing and the first tick after it ends the
    conversation with the connect error for 5000 ms, listing the hosts of
    [expect] as [_.keys] lists the keys of [_.invert(expect)]: each once,
    those that are array indices first and in ascending order, the
    others in the order of their first occurrence, [__proto__] left out.
    The times are safe integers. *)
Theorem zero_connect_timeout_is_default (c : call) (err : option error) :
  expect c <> [] ->
  opt_timeout (options c) ≫= opt_connect = None
  \/ opt_timeout (options c) ≫= opt_connect = Some 0 ->
  exactClock c (start c + 5001) (fst (request c)) = true ->
  conversation c [Tick (start c + 5000)] = request c
  /\ events (snd (conversation c [Tick (start c + 5001); Complete 1 err]))
     = [EvError
          (Error "Did not receive a message within the connect timeout interval of 5000ms")
          (Some (keys (invert (expect c))))].
Proof.
  intros Hne Hopt _.
  assert (Hc : connect c = 5000).
  { unfold connect. by destruct Hopt as [-> | ->]. }
  unfold conversation. rewrite (request_armed c Hne). split.
  - cbn [run]. unfold step. reduce_state. unfold_actions. reduce_state.
    rewrite Hc. by replace (start c + 5000 >? start c + 5000) with false by lia.
  - cbn [run].
    rewrite (timeout_tick c (start c + 5001)
               (Conv false ∅ (invert (expect c)) 0 true false [KListen])
               eq_refl eq_refl)
      by (unfold timedOut; cbn; lia).
    reduce_state. change (0 =? 0) with true. cbv iota.
    match goal with
    | |- context [step c (Complete 1 err) ?s1] =>
        pose proof (complete_closing c 1 _ err s1 eq_refl eq_refl) as Hev;
        destruct (step c (Complete 1 err) s1) as [s2 out2]
    end.
    cbn [fst snd] in *. rewrite app_nil_r.
    change (events (SetInterval :: Listen (ReplyChannel (name c) (broadcastId c))
                      :: ClearInterval :: Close :: out2))
      with (events out2).
    rewrite Hev. unfold terminalOf, isEmpty_responses. reduce_state.
    rewrite bool_decide_eq_true_2 by done.
    unfold connectReason. by rewrite Hc.
Qed.

Lemma zero_connect_timeout_is_default_witness :
  let c := Call "test" VNull
             (Options (Some ["web"; "7"; "db"; "web"; "10"; "2"])
                (Some (TimeoutOptions (Some 0) None)))
             [] "self" "id0" 1000 in
  exactClock c 6001 (fst (request c)) = true
  /\ conversation c [Tick 6000] = request c
  /\ events (snd (conversation c [Tick 6001; Complete 1 None]))
     = [EvError
          (Error "Did not receive a message within the connect timeout interval of 5000ms")
          (Some ["2"; "7"; "10"; "web"; "db"])].
Proof.
  cbv zeta.
  pose proof (zero_connect_timeout_is_default
    (Call "test" VNull
       (Options (Some ["web"; "7"; "db"; "web"; "10"; "2"])
          (Some (TimeoutOptions (Some 0) None)))
       [] "self" "id0" 1000) None) as H.
  destruct H as [H1 H2]; [discriminate|right; reflexivity|reflexivity|].
  split; [reflexivity|]. split; [exact H1|]. vm_compute in H2 |- *. exact H2.
Defined.

(** ** The channels *)

Ltac solve_shape H :=
  let x := fresh "x" in
  let Hin := fresh "Hin" in
  let Hs := fresh "Hs" in
  intros x Hin Hs;
  first
    [ by apply H
    | apply in_app_or in Hin; destruct Hin as [Hin|Hin];
      [ by apply H
      | cbn in Hin; in_cases Hin;
        try (subst x; first [discriminate Hs | reflexivity]) ] ].

Ltac explore c s i :=
  let cl := fresh "cl" in
  let pe := fresh "pe" in
  let Hk := fresh "Hk" in
  let Hd := fresh "Hd" in
  destruct s as [cl ? ? ? ? ? pe]; reduce_state;
  destruct i as [?now | ?now ?m | ?j ?err];
  [ unfold_actions; reduce_state; split_cases
  | unfold_actions; reduce_state; split_cases
  | unfold step; reduce_state;
    match goal with
    | |- context [pe !! ?j] =>
        destruct (pe !! j) as [[| | |[?reason| |?e]]|] eqn:Hk; reduce_state;
        [ pose proof (count_delete isKListen pe j _ Hk) as Hd; cbn in Hd;
          unfold_actions; reduce_state; split_cases ..
        | idtac ]
    end ];
  rewrite ?app_nil_r; reduce_state; rewrite ?count_app.

Lemma step_wiring (c : call) (i : input) (s : conv) (out : list effect) :
  wiring c s out ->
  wiring c (fst (step c i s)) (out ++ snd (step c i s)).
Proof.
  intros [H1 H2 H3 H4 H5 H6].
  remember (if bool_decide (expect c = []) then 0%nat else 1%nat) as nl eqn:Hnl.
  assert (Hw : forall s' out',
            (count isKListen (pending s') + count isSend out' <= 1)%nat ->
            count isOnData out' = count isSend out' ->
            listening s' = negb (count isSend out' =? 0)%nat ->
            count isListen out' = nl ->
            (forall x, In x out' -> isSend x = true ->
               x = Send (RequestChannel (name c))
                     (RequestFrame (broadcastId c) (hostname c) (data c))) ->
            (forall x, In x out' -> isListen x = true ->
               x = Listen (ReplyChannel (name c) (broadcastId c))) ->
            wiring c s' out').
  { intros s' out' ? ? ? ? ? ?. subst nl. by constructor. }
  clear Hnl. apply Hw; clear Hw.
  - explore c s i; cbn; lia.
  - explore c s i; cbn; lia.
  - explore c s i; cbn; rewrite ?Nat.add_0_r;
      first [ exact H3
            | match goal with
              | |- _ = negb (?n =? 0)%nat =>
                  let E := fresh "E" in
                  destruct (n =? 0)%nat eqn:E;
                  [apply Nat.eqb_eq in E; lia|reflexivity]
              end ].
  - explore c s i; cbn; lia.
  - explore c s i; solve_shape H5.
  - explore c s i; solve_shape H6.
Qed.

Lemma conversation_wiring (c : call) (ins : list input) :
  wiring c (fst (conversation c ins)) (snd (conversation c ins)).
Proof.
  assert (Hrun : forall ins s out, wiring c s out ->
            wiring c (fst (run c ins s)) (out ++ snd (run c ins s))).
  { clear. induction ins as [|i ins IH]; intros s out H; cbn [run].
    - cbn. by rewrite app_nil_r.
    - pose proof (step_wiring c i s out H) as H1.
      destruct (step c i s) as [s1 out1]. cbn [fst snd] in H1.
      specialize (IH s1 _ H1). destruct (run c ins s1) as [s2 out2].
      cbn [fst snd] in *. by rewrite app_assoc. }
  assert (H0 : wiring c (fst (request c)) (snd (request c))).
  { unfold request. case_bool_decide as He; unfold_actions; reduce_state.
    - constructor; reduce_state; try done.
      all: try (rewrite bool_decide_eq_true_2 by done; done).
      all: try (cbn; lia).
      all: intros x Hin Hx; cbn in Hin; in_cases Hin; by subst x.
    - constructor; reduce_state; try done.
      all: try (rewrite bool_decide_eq_false_2 by done; done).
      all: try (cbn; lia).
      all: intros x Hin Hx; cbn in Hin; in_cases Hin; by subst x. }
  unfold conversation. destruct (request c) as [s0 out0]. cbn [fst snd] in H0.
  specialize (Hrun ins s0 out0 H0). by destruct (run c ins s0).
Qed.

(** X12. In every conversation the reply channel of the call's name and
    broadcast id is subscribed to once (never, if [expect] is empty), and
    the request is published at most once: on the request channel of the
    name, carrying the broadcast id, this node's hostname and the data as
    given. The handler of inbound frames is registered exactly when the
    request is published, and nothing is published while the callback of
    the subscription is outstanding. *)
Theorem request_published_at_most_once (c : call) (ins : list input) :
  let s := fst (conversation c ins) in
  let out := snd (conversation c ins) in
  (count isSend out <= 1)%nat
  /\ count isOnData out = count isSend out
  /\ (listening s = true <-> count isSend out = 1%nat)
  /\ (count isKListen (pending s) = 1%nat -> count isSend out = 0%nat)
  /\ count isListen out = (if bool_decide (expect c = []) then 0%nat else 1%nat)
  /\ List.filter isSend out
     = repeat (Send (RequestChannel (name c))
                 (RequestFrame (broadcastId c) (hostname c) (data c)))
         (count isSend out)
  /\ List.filter isListen out
     = repeat (Listen (ReplyChannel (name c) (broadcastId c)))
         (count isListen out).
Proof.
  intros s out. destruct (conversation_wiring c ins) as [H1 H2 H3 H4 H5 H6].
  fold s out in H1, H2, H3, H4, H5, H6.
  assert (Hrep : forall (p : effect -> bool) (y : effect) (l : list effect),
            (forall x, In x l -> p x = true -> x = y) ->
            List.filter p l = repeat y (count p l)).
  { clear. intros p y l. unfold count. induction l as [|x l IH]; cbn; [done|].
    intros H. destruct (p x) eqn:E; cbn.
    - rewrite <- IH by auto. f_equal. apply H; auto.
    - apply IH. auto. }
  split; [lia|]. split; [done|]. split.
  { rewrite H3. destruct (count isSend out) as [|[|n]]; cbn; split; try done; lia. }
  split; [lia|]. split; [done|]. split; by apply Hrep.
Qed.

Lemma request_published_at_most_once_witness :
  let c := Call "test" VNull
             (Options (Some ["self"]) (Some (TimeoutOptions (Some 10) None)))
             ["self"] "self" "id0" 1000 in
  let s := fst (conversation c []) in
  let late := [Tick 1011; Complete 0 None; Complete 0 None] in
  count isKListen (pending s) = 1%nat
  /\ count isSend (snd (conversation c [])) = 0%nat
  /\ count isSend (snd (conversation c late)) = 0%nat
  /\ count isSend (snd (conversation c [Complete 0 None])) = 1%nat.
Proof.
  cbv zeta. split; [reflexivity|].
  pose proof (request_published_at_most_once
    (Call "test" VNull
       (Options (Some ["self"]) (Some (TimeoutOptions (Some 10) None)))
       ["self"] "self" "id0" 1000) []) as H.
  cbv zeta in H. destruct H as (_ & _ & _ & H & _).
  split; [apply H; reflexivity|]. split; reflexivity.
Defined.

(** * A listener answering a requester *)

Lemma answer_frames (h : string) (bs : list value) (s : handler) :
  Listener.closed s = false ->
  sent (snd (Listener.run h (Wire.answer bs) s))
  = map (Frame "data" h) bs ++ [Frame "end" h VUndefined].
Proof.
  revert s. unfold Wire.answer.
  induction bs as [|b bs IH]; intros s Hcl; [done|].
  cbn [map app Listener.run]. unfold Listener.step at 1, _reply. rewrite Hcl.
  specialize (IH (Listener.defer (KReply NoCallback) s) Hcl).
  destruct (Listener.run h _ _) as [s2 out2]. cbn [snd] in *.
  unfold sent in *. by rewrite omap_app, IH.
Qed.

Lemma assign_present (h : string) : assign h [h] = [h].
Proof.
  unfold assign. rewrite bool_decide_eq_true_2; [done|]. constructor.
Qed.

Lemma inherits_proto (h : string) :
  inherits h = false -> String.eqb h "__proto__" = false.
Proof.
  intros Hh. apply String.eqb_neq. intros ->. by vm_compute in Hh.
Qed.

Lemma data_deliveries (c : call) (h : string) (bs : list value) :
  forall (ts : list Z) (acc : list value) (lm : Z) (pe : list cont),
  length ts = length bs ->
  exists lm',
    run c (Wire.deliveries ts (map (Frame "data" h) bs))
      (Conv false {[h := Bodies acc]} [h] lm true true pe)
    = (Conv false {[h := Bodies (acc ++ bs)]} [h] lm' true true pe,
       flat_map (fun b => [Log LTrace "Received broadcast data from a host";
                           Emit (EvData h b)]) bs).
Proof.
  unfold Wire.deliveries.
  induction bs as [|b bs IH]; intros ts acc lm pe Hlen.
  - destruct ts; [|done]. exists lm. cbn. by rewrite app_nil_r.
  - destruct ts as [|t ts]; [done|]. injection Hlen as Hlen.
    destruct (IH ts (acc ++ [b]) t pe Hlen) as [lm' Hrun].
    exists lm'. cbn [map zip_with run flat_map].
    unfold step at 1. reduce_state. unfold_actions. reduce_state.
    cbn [type host body String.eqb Ascii.eqb Bool.eqb]. reduce_state.
    unfold get. rewrite lookup_singleton_eq. reduce_state.
    rewrite insert_singleton_eq, assign_present.
    rewrite Hrun. by rewrite <- app_assoc.
Qed.

(** X13. A requester that expects one host, whose name is not that of a
    member of [Object.prototype], and the listener on that host whose
    consumer replies with the bodies [bs] and then ends: the listener's
    frames are the acknowledgement, one data frame per body in order, and
    the end frame; delivered in that order they make the requester emit
    [ack], one [data] per body in order, [hostEnd] with all the bodies,
    and, when the close completes, [end] with [responses] mapping the
    host to the bodies, which ends the conversation without waiting for a
    timeout. *)
Theorem listener_answer_round_trip (c : call) (h : string) (bs : list value)
    (ta te : Z) (ts : list Z) (cerr : option error) :
  expect c = [h] -> inherits h = false -> length ts = length bs ->
  let ins := Complete 0 None
             :: Wire.deliveries (ta :: ts ++ [te]) (Wire.replyFrames h bs)
             ++ [Complete 1 cerr] in
  Wire.replyFrames h bs
  = Frame "ack" h VUndefined :: map (Frame "data" h) bs ++ [Frame "end" h VUndefined]
  /\ events (snd (conversation c ins))
     = EvAck h :: map (EvData h) bs
       ++ [EvHostEnd h (Some (Bodies bs)); EvEnd {[h := Bodies bs]} None]
  /\ responses (fst (conversation c ins)) = {[h := Bodies bs]}
  /\ closed (fst (conversation c ins)) = true.
Proof.
  intros He Hh Hlen ins.
  pose proof (inherits_proto h Hh) as Hp.
  assert (Hf : Wire.replyFrames h bs
               = Frame "ack" h VUndefined
                 :: map (Frame "data" h) bs ++ [Frame "end" h VUndefined]).
  { unfold Wire.replyFrames. by rewrite answer_frames. }
  split; [exact Hf|]. subst ins. rewrite Hf. clear Hf.
  assert (Hne : expect c <> []) by (by rewrite He).
  unfold conversation. rewrite (request_armed c Hne), He.
  assert (Hi : invert [h] = [h]).
  { unfold invert, assign. cbn [foldl].
    rewrite bool_decide_eq_false_2 by apply not_elem_of_nil. by rewrite Hp. }
  rewrite Hi.
  unfold Wire.deliveries.
  change (zip_with Deliver (ta :: ts ++ [te])
            (Frame "ack" h VUndefined
             :: map (Frame "data" h) bs ++ [Frame "end" h VUndefined]))
    with (Deliver ta (Frame "ack" h VUndefined)
          :: zip_with Deliver (ts ++ [te])
               (map (Frame "data" h) bs ++ [Frame "end" h VUndefined])).
  rewrite zip_with_app by (by rewrite length_map).
  cbn [zip_with app]. rewrite <- app_assoc. cbn [app].
  set (datas := zip_with Deliver ts (map (Frame "data" h) bs)).
  set (request_frame := Send (RequestChannel (name c))
                          (RequestFrame (broadcastId c) (hostname c) (data c))).
  set (data_out := flat_map (fun b => [Log LTrace "Received broadcast data from a host";
                                       Emit (EvData h b)]) bs).
  (* the subscription reports *)
  assert (E1 : step c (Complete 0 None) (Conv false ∅ [h] 0 true false [KListen])
               = (Conv false ∅ [h] 0 true true [KSend], [OnData; request_frame])).
  { unfold step. reduce_state.
    change ([KListen] !! 0%nat) with (Some KListen).
    change (delete 0%nat [KListen]) with (@nil cont).
    unfold resume, onListen. by unfold_actions. }
  (* the acknowledgement *)
  assert (E2 : step c (Deliver ta (Frame "ack" h VUndefined))
                 (Conv false ∅ [h] 0 true true [KSend])
               = (Conv false {[h := Bodies []]} [h] ta true true [KSend],
                  [Log LTrace "Received broadcast acknowledgement from a host";
                   Emit (EvAck h)])).
  { unfold step. reduce_state. unfold_actions. reduce_state.
    cbn [type host body String.eqb Ascii.eqb Bool.eqb]. reduce_state.
    unfold get. rewrite lookup_empty, Hh, assign_present. reduce_state.
    by rewrite insert_empty. }
  (* the data frames *)
  destruct (data_deliveries c h bs ts [] ta [KSend] Hlen) as [lm' E3].
  unfold Wire.deliveries in E3. fold datas data_out in E3. cbn [app] in E3.
  (* the end frame *)
  assert (Hr : remove h [h] = []).
  { unfold remove. cbn [List.filter]. by rewrite String.eqb_refl. }
  assert (E4 : step c (Deliver te (Frame "end" h VUndefined))
                 (Conv false {[h := Bodies bs]} [h] lm' true true [KSend])
               = (Conv true {[h := Bodies bs]} [] te false true
                    [KSend; KClose AfterCompletion],
                  [Log LTrace "Received broadcast end from a host";
                   Emit (EvHostEnd h (Some (Bodies bs))); ClearInterval; Close])).
  { unfold step. reduce_state. unfold_actions. reduce_state.
    cbn [type host body String.eqb Ascii.eqb Bool.eqb]. reduce_state.
    unfold isEmpty_expecting. reduce_state.
    rewrite Hr, bool_decide_eq_true_2 by done. reduce_state.
    unfold get. by rewrite lookup_singleton_eq. }
  (* the close completes *)
  assert (E5 : exists o5,
            step c (Complete 1 cerr)
              (Conv true {[h := Bodies bs]} [] te false true
                 [KSend; KClose AfterCompletion])
            = (Conv true {[h := Bodies bs]} [] te false true [KSend], o5)
            /\ events o5 = [EvEnd {[h := Bodies bs]} None]).
  { unfold step. reduce_state.
    change ([KSend; KClose AfterCompletion] !! 1%nat)
      with (Some (KClose AfterCompletion)).
    change (delete 1%nat [KSend; KClose AfterCompletion]) with [KSend].
    unfold resume, afterTeardown. unfold_actions. reduce_state.
    destruct cerr; eexists; split; reflexivity. }
  destruct E5 as (o5 & E5 & Ho5).
  assert (Hev : events data_out = map (EvData h) bs).
  { subst data_out. clear. induction bs as [|b bs IH]; [done|].
    cbn. by rewrite <- IH. }
  cbn [run]. rewrite E1, E2, run_app, E3. cbn [run]. rewrite E4, E5.
  cbn [fst snd]. split; [|done].
  rewrite app_nil_r.
  change (events (SetInterval :: Listen (ReplyChannel (name c) (broadcastId c))
                    :: [OnData; request_frame]
                    ++ [Log LTrace "Received broadcast acknowledgement from a host";
                        Emit (EvAck h)]
                    ++ data_out
                    ++ [Log LTrace "Received broadcast end from a host";
                        Emit (EvHostEnd h (Some (Bodies bs))); ClearInterval; Close]
                    ++ o5))
    with (EvAck h :: events (data_out
            ++ [Log LTrace "Received broadcast end from a host";
                Emit (EvHostEnd h (Some (Bodies bs))); ClearInterval; Close] ++ o5)).
  rewrite !events_app, Hev, Ho5. done.
Qed.

Lemma listener_answer_round_trip_witness :
  let c := Call "test" (VStr "test-request") (Options (Some ["self"]) None)
             ["self"] "self" "id0" 1000 in
  let ins := [Complete 0 None;
              Deliver 1001 (Frame "ack" "self" VUndefined);
              Deliver 1002 (Frame "data" "self" (VStr "test-response"));
              Deliver 1003 (Frame "end" "self" VUndefined);
              Complete 1 None] in
  expect c = ["self"] /\ inherits "self" = false
  /\ events (snd (conversation c ins))
     = [EvAck "self"; EvData "self" (VStr "test-response");
        EvHostEnd "self" (Some (Bodies [VStr "test-response"]));
        EvEnd {["self" := Bodies [VStr "test-response"]]} None].
Proof.
  cbv zeta. split; [reflexivity|]. split; [reflexivity|].
  pose proof (listener_answer_round_trip
    (Call "test" (VStr "test-request") (Options (Some ["self"]) None)
       ["self"] "self" "id0" 1000)
    "self" [VStr "test-response"] 1001 1003 [1002] None eq_refl eq_refl eq_refl) as H.
  cbv zeta in H. destruct H as (_ & H & _). exact H.
Defined.

(** * The helper [_allOnce] *)

Lemma listeners_spec (e : nat) (args : TestSupport.arguments) (n : nat) :
  forall (es : list nat) (rs : list bool) (acc : list TestSupport.arguments) (k : nat),
  length es = length rs ->
  (length acc + length (List.filter id rs) + k = n)%nat ->
  let r := TestSupport.listeners e args n es rs acc in
  length (fst (fst r)) = length rs
  /\ (length (snd (fst r)) + length (List.filter id (fst (fst r))) + k = n)%nat
  /\ snd (fst r)
     = acc ++ map (fun _ => args)
                (List.filter (fun p => Nat.eqb (fst p) e && snd p) (zip es rs))
  /\ snd r
     = if (length acc <? n)%nat && (length (snd (fst r)) =? n)%nat
       then [TestSupport.Handler (snd (fst r))] else [].
Proof.
  induction es as [|e' es IH]; intros rs acc k Hlen Hn.
  - destruct rs; [|done].
    cbn [TestSupport.listeners fst snd zip zip_with List.filter map length] in *.
    rewrite app_nil_r.
    split; [done|]. split; [lia|]. split; [done|].
    destruct (length acc <? n)%nat eqn:E1; [|done].
    apply Nat.ltb_lt in E1. cbn [andb].
    by replace (length acc =? n)%nat with false by (symmetry; apply Nat.eqb_neq; lia).
  - destruct rs as [|r rs]; [done|]. injection Hlen as Hlen.
    cbn [TestSupport.listeners zip zip_with List.filter fst snd].
    destruct (Nat.eqb e' e && r) eqn:E.
    + apply andb_prop in E as [_ ->]. cbn [List.filter id] in Hn. cbn [length] in Hn.
      specialize (IH rs (acc ++ [args]) k Hlen).
      rewrite length_app in IH. cbn [length] in IH.
      destruct IH as (I1 & I2 & I3 & I4); [lia|].
      destruct (TestSupport.listeners e args n es rs (acc ++ [args]))
        as [[rs' acc'] out]. cbn [fst snd] in *.
      cbn [length List.filter id map]. split; [by rewrite I1|]. split; [lia|].
      split; [by rewrite I3, <- app_assoc|].
      rewrite I4, length_app. cbn [length].
      replace (length acc <? n)%nat with true by (symmetry; apply Nat.ltb_lt; lia).
      cbn [andb].
      destruct (length acc + 1 =? n)%nat eqn:E1.
      * apply Nat.eqb_eq in E1.
        replace (length acc + 1 <? n)%nat with false
          by (symmetry; apply Nat.ltb_ge; lia).
        cbn [andb]. rewrite app_nil_r.
        assert (Hnil : List.filter (fun p => Nat.eqb (fst p) e && snd p) (zip es rs) = []).
        { apply (f_equal length) in I3. rewrite !length_app, length_map in I3.
          cbn [length] in I3.
          destruct (List.filter _ (zip es rs)); [done|cbn in I3; lia]. }
        rewrite I3, Hnil. cbn [map]. rewrite app_nil_r, length_app. cbn [length].
        by rewrite (proj2 (Nat.eqb_eq _ _) E1).
      * apply Nat.eqb_neq in E1.
        replace (length acc + 1 <? n)%nat with true
          by (symmetry; apply Nat.ltb_lt; lia).
        done.
    + specialize (IH rs acc (k + if r then 1 else 0)%nat Hlen).
      destruct IH as (I1 & I2 & I3 & I4).
      { destruct r; cbn [List.filter id length] in Hn; cbn; lia. }
      destruct (TestSupport.listeners e args n es rs acc) as [[rs' acc'] out].
      cbn [fst snd] in *. cbn [length]. split; [by rewrite I1|]. split.
      { destruct r; cbn [List.filter id length]; lia. }
      done.
Qed.

(** X14. The test helper [_allOnce] calls its handler at most once: in the
    turn in which [allArguments] reaches the number of emitters, that is
    when the last of its [once] listeners has run, and never if the list
    of emitters is empty. The handler receives the arguments of the
    emissions in the order in which the listeners ran, which is the order
    of the emissions and not that of the emitters; an emitter that emits
    again adds nothing. *)
Theorem allOnce_calls_handler_once (es : list nat)
    (ems : list (nat * TestSupport.arguments)) :
  let s := fst (TestSupport.run ems (TestSupport._allOnce es)) in
  let out := snd (TestSupport.run ems (TestSupport._allOnce es)) in
  TestSupport.allArguments s = TestSupport.collected ems (TestSupport._allOnce es)
  /\ (length (TestSupport.allArguments s)
      + length (List.filter id (TestSupport.registered s)) = length es)%nat
  /\ out = if (0 <? length es)%nat
              && (length (TestSupport.allArguments s) =? length es)%nat
           then [TestSupport.Handler (TestSupport.allArguments s)] else [].
Proof.
  assert (H : forall ems s out,
            TestSupport.emitters s = es ->
            length (TestSupport.registered s) = length es ->
            (length (TestSupport.allArguments s)
             + length (List.filter id (TestSupport.registered s)) = length es)%nat ->
            out = (if (0 <? length es)%nat
                      && (length (TestSupport.allArguments s) =? length es)%nat
                   then [TestSupport.Handler (TestSupport.allArguments s)] else []) ->
            let s' := fst (TestSupport.run ems s) in
            TestSupport.allArguments s'
            = TestSupport.allArguments s ++ TestSupport.collected ems s
            /\ (length (TestSupport.allArguments s')
                + length (List.filter id (TestSupport.registered s')) = length es)%nat
            /\ out ++ snd (TestSupport.run ems s)
               = if (0 <? length es)%nat
                    && (length (TestSupport.allArguments s') =? length es)%nat
                 then [TestSupport.Handler (TestSupport.allArguments s')] else []).
  { clear ems. induction ems as [|[e args] ems IH]; intros s out He Hr Hn Hout.
    - cbn. rewrite !app_nil_r. done.
    - cbn [TestSupport.run TestSupport.collected]. unfold TestSupport.emit.
      destruct s as [es0 rs acc]. cbn [TestSupport.emitters TestSupport.registered
        TestSupport.allArguments] in *. subst es0.
      pose proof (listeners_spec e args (length es) es rs acc 0%nat
                    (eq_sym Hr)) as Hs.
      cbn zeta in Hs. destruct Hs as (S1 & S2 & S3 & S4); [lia|].
      destruct (TestSupport.listeners e args (length es) es rs acc)
        as [[rs' acc'] out1]. cbn [fst snd] in *.
      specialize (IH (TestSupport.AllOnce es rs' acc') (out ++ out1)).
      cbn [TestSupport.emitters TestSupport.registered TestSupport.allArguments] in IH.
      destruct IH as (I1 & I2 & I3); [done|lia|lia| |].
      { subst out out1.
        destruct (0 <? length es)%nat eqn:E0; cbn [andb];
          [apply Nat.ltb_lt in E0|apply Nat.ltb_ge in E0].
        - destruct (length acc =? length es)%nat eqn:E1;
            [apply Nat.eqb_eq in E1|apply Nat.eqb_neq in E1].
          + replace (length acc <? length es)%nat with false
              by (symmetry; apply Nat.ltb_ge; lia).
            cbn [andb app].
            assert (Hnil : List.filter (fun p => Nat.eqb (fst p) e && snd p)
                             (zip es rs) = []).
            { apply (f_equal length) in S3. rewrite length_app, length_map in S3.
              destruct (List.filter _ (zip es rs)); [done|cbn in S3; lia]. }
            rewrite S3, Hnil. cbn [map]. rewrite app_nil_r.
            by rewrite (proj2 (Nat.eqb_eq _ _) E1).
          + replace (length acc <? length es)%nat with true
              by (symmetry; apply Nat.ltb_lt; lia).
            done.
        - replace (length acc <? length es)%nat with false
            by (symmetry; apply Nat.ltb_ge; lia).
          done. }
      destruct (TestSupport.run ems _) as [s2 out2]. cbn [fst snd] in *.
      split; [by rewrite I1, S3, <- app_assoc|]. split; [done|].
      by rewrite app_assoc. }
  intros s out.
  destruct (H ems (TestSupport._allOnce es) []) as (H1 & H2 & H3).
  - done.
  - cbn. by rewrite length_map.
  - cbn. clear. induction es as [|? es IH]; cbn; [done|]. by rewrite IH.
  - cbn. destruct es; [done|]. done.
  - done.
Qed.

(** * The listener's loop *)

Lemma In_delete {A : Type} (l : list A) (i : nat) (x : A) :
  In x (delete i l) -> In x l.
Proof.
  revert i. induction l as [|y l IH]; intros i; [by destruct i|].
  destruct i as [|i]; cbn; [auto|]. intros [->|H]; [auto|]. right. by apply (IH i).
Qed.

(** What holds of a listener [s], of all its code did so far, [out], and
    of the requests heard so far, [hd]. *)
Lemma listening_step (name hostname : string) (i : Listening.input)
    (s : Listening.listener) (out : list Listening.effect)
    (hd : list (string * value)) :
  let P := fun (s : Listening.listener) (out : list Listening.effect)
               (hd : list (string * value)) =>
    omap Listening.ackOn out = map (fun p => ReplyChannel name (fst p)) hd
    /\ (length (omap Listening.requestOf out) + count Listening.isDropped out
        + count Listening.isKAck (Listening.pending s) = length hd)%nat
    /\ (forall c b, In (c, b) (omap Listening.requestOf out) ->
          exists bid, c = ReplyChannel name bid /\ In (bid, b) hd)
    /\ (forall bid b, In (Listening.KAck bid b) (Listening.pending s) ->
          In (bid, b) hd)
    /\ (count Listening.isEmitListen out
        + count Listening.isKListen (Listening.pending s) = 1)%nat
    /\ Listening.registered s = negb (count Listening.isEmitListen out =? 0)%nat in
  P s out hd ->
  P (fst (Listening.step name hostname i s))
    (out ++ snd (Listening.step name hostname i s))
    (hd ++ Listening.heard name hostname [i] s).
Proof.
  intros P (H1 & H2 & H3 & H4 & H5 & H6). subst P. cbn beta.
  destruct s as [rg pe]. cbn [Listening.registered Listening.pending] in *.
  destruct i as [bid b | i err | cb]; cbn [Listening.step Listening.heard].
  - cbn [Listening.registered]. destruct rg; cbn [app fst snd].
    + unfold Listening.onData, Listener.onRequest.
      cbn [map fst snd Listening.registered Listening.pending].
      rewrite !omap_app, !count_app, ?length_app, !map_app, ?app_nil_r.
      cbn. rewrite ?app_nil_r, ?length_app. split; [by rewrite H1|]. split; [cbn in *; lia|].
      split; [|split; [|split; [lia|by rewrite Nat.add_0_r]]].
      * intros c b0 Hin. destruct (H3 c b0 Hin) as (bid' & -> & Hin').
        exists bid'. split; [done|]. apply in_or_app. by left.
      * intros bid' b' Hin. apply in_or_app.
        apply in_app_or in Hin as [Hin|[[= -> ->]|[]]]; [left; by apply H4|].
        right. by left.
    + rewrite ?app_nil_r. done.
  - cbn [Listening.pending Listening.registered].
    destruct (pe !! i) as [k|] eqn:Hk; cbn [app fst snd];
      [|rewrite ?app_nil_r; done].
    pose proof (count_delete Listening.isKAck pe i k Hk) as Hd1.
    pose proof (count_delete Listening.isKListen pe i k Hk) as Hd2.
    assert (Hin : In k pe) by (apply list_elem_of_In; by eapply list_elem_of_lookup_2).
    destruct k as [|bid b|cb]; cbn in Hd1, Hd2;
      cbn [Listening.resume fst snd Listening.pending Listening.registered].
    + rewrite !omap_app, !count_app, ?app_nil_r. cbn.
      rewrite ?app_nil_r.
      split; [done|]. split; [lia|]. split; [done|].
      split; [intros ? ? Hi; by eapply H4, In_delete|]. split; [lia|].
      by replace (count Listening.isEmitListen out + 1 =? 0)%nat with false
        by (symmetry; apply Nat.eqb_neq; lia).
    + rewrite ?app_nil_r. destruct err as [e|]; cbn [Listener.onAckSent snd map].
      * rewrite !omap_app, !count_app. cbn. rewrite ?app_nil_r.
        split; [done|]. split; [lia|]. split; [done|].
        split; [intros ? ? Hi; by eapply H4, In_delete|]. split; [lia|].
        by rewrite Nat.add_0_r.
      * rewrite !omap_app, !count_app, ?length_app. cbn. rewrite ?app_nil_r.
        split; [done|]. split; [lia|]. split.
        { intros c b0 Hi. apply in_app_or in Hi as [Hi|[[= <- <-]|[]]]; [by apply H3|].
          exists bid. split; [done|]. by apply H4. }
        split; [intros ? ? Hi; by eapply H4, In_delete|]. split; [lia|].
        by rewrite Nat.add_0_r.
    + rewrite ?app_nil_r.
      split; [done|]. split; [lia|]. split; [done|].
      split; [intros ? ? Hi; by eapply H4, In_delete|]. split; [lia|done].
  - unfold Listening.close. cbn [fst snd Listening.pending Listening.registered].
    rewrite !omap_app, !count_app, ?app_nil_r. cbn. rewrite ?app_nil_r.
    split; [done|]. split; [lia|]. split; [done|]. split.
    { intros bid b Hi. apply in_app_or in Hi as [Hi|[Hi|[]]]; [by apply H4|done]. }
    split; [lia|]. by rewrite Nat.add_0_r.
Qed.

(** X15. A listener acknowledges every request it hears, once, on the
    reply channel of the request's broadcast id and in the order of
    arrival. Every request heard is either waiting for the outcome of
    its acknowledgement, or was handed to the consumer, or was dropped
    with an error log because the acknowledgement failed; the consumer is
    only handed requests that were heard, with the body as it arrived.
    [listen] is emitted once, when the callback of the subscription runs,
    whatever it reports, and requests are heard from then on. *)
Theorem requests_acknowledged_then_emitted (name hostname : string)
    (ins : list Listening.input) :
  let s := fst (Listening.run name hostname ins (fst (Listening.listen name))) in
  let out := snd (Listening.listen name)
             ++ snd (Listening.run name hostname ins (fst (Listening.listen name))) in
  let hd := Listening.heard name hostname ins (fst (Listening.listen name)) in
  omap Listening.ackOn out = map (fun p => ReplyChannel name (fst p)) hd
  /\ (length (omap Listening.requestOf out) + count Listening.isDropped out
      + count Listening.isKAck (Listening.pending s) = length hd)%nat
  /\ (forall c b, In (c, b) (omap Listening.requestOf out) ->
        exists bid, c = ReplyChannel name bid /\ In (bid, b) hd)
  /\ (count Listening.isEmitListen out
      + count Listening.isKListen (Listening.pending s) = 1)%nat
  /\ (Listening.registered s = true <-> count Listening.isEmitListen out = 1%nat).
Proof.
  set (P := fun (s : Listening.listener) (out : list Listening.effect)
                (hd : list (string * value)) =>
    omap Listening.ackOn out = map (fun p => ReplyChannel name (fst p)) hd
    /\ (length (omap Listening.requestOf out) + count Listening.isDropped out
        + count Listening.isKAck (Listening.pending s) = length hd)%nat
    /\ (forall c b, In (c, b) (omap Listening.requestOf out) ->
          exists bid, c = ReplyChannel name bid /\ In (bid, b) hd)
    /\ (forall bid b, In (Listening.KAck bid b) (Listening.pending s) ->
          In (bid, b) hd)
    /\ (count Listening.isEmitListen out
        + count Listening.isKListen (Listening.pending s) = 1)%nat
    /\ Listening.registered s = negb (count Listening.isEmitListen out =? 0)%nat).
  assert (Hrun : forall ins s out hd, P s out hd ->
            P (fst (Listening.run name hostname ins s))
              (out ++ snd (Listening.run name hostname ins s))
              (hd ++ Listening.heard name hostname ins s)).
  { clear ins. induction ins as [|i ins IH]; intros s out hd HP.
    - cbn. by rewrite ?app_nil_r.
    - pose proof (listening_step name hostname i s out hd HP) as H1.
      cbn [Listening.run Listening.heard] in *. rewrite ?app_nil_r in H1.
      destruct (Listening.step name hostname i s) as [s1 out1]. cbn [fst snd] in *.
      specialize (IH s1 _ _ H1).
      destruct (Listening.run name hostname ins s1) as [s2 out2]. cbn [fst snd] in *.
      by rewrite !app_assoc. }
  intros s out hd.
  assert (H0 : P (fst (Listening.listen name)) (snd (Listening.listen name)) []).
  { cbn. repeat split; try done. intros ? ? [[=]|[]]. }
  specialize (Hrun ins _ _ _ H0). cbn [app] in Hrun. fold s out hd in Hrun.
  destruct Hrun as (H1 & H2 & H3 & _ & H5 & H6).
  repeat (split; [done|]).
  rewrite H6. destruct (count Listening.isEmitListen out) as [|[|n]]; cbn;
    split; try done; lia.
Qed.

Lemma requests_acknowledged_then_emitted_witness :
  let ins := [Listening.Request "early" VNull;
              Listening.Complete 0 (Some (Error "subscribe failed"));
              Listening.Request "id1" (VStr "a");
              Listening.Request "id2" (VStr "b");
              Listening.Complete 0 (Some (Error "ack failed"));
              Listening.Complete 0 None] in
  let out := snd (Listening.listen "test")
             ++ snd (Listening.run "test" "self" ins (fst (Listening.listen "test"))) in
  omap Listening.requestOf out = [(ReplyChannel "test" "id2", VStr "b")]
  /\ In (ReplyChannel "test" "id2", VStr "b") (omap Listening.requestOf out)
  /\ exists bid,
       ReplyChannel "test" "id2" = ReplyChannel "test" bid
       /\ In (bid, VStr "b")
            (Listening.heard "test" "self" ins (fst (Listening.listen "test"))).
Proof.
  cbv zeta. split; [reflexivity|].
  assert (Hin : In (ReplyChannel "test" "id2", VStr "b")
    (omap Listening.requestOf
       (snd (Listening.listen "test")
        ++ snd (Listening.run "test" "self"
                  [Listening.Request "early" VNull;
                   Listening.Complete 0 (Some (Error "subscribe failed"));
                   Listening.Request "id1" (VStr "a");
                   Listening.Request "id2" (VStr "b");
                   Listening.Complete 0 (Some (Error "ack failed"));
                   Listening.Complete 0 None]
                  (fst (Listening.listen "test")))))).
  { vm_compute. left. reflexivity. }
  split; [exact Hin|].
  pose proof (requests_acknowledged_then_emitted "test" "self"
    [Listening.Request "early" VNull;
     Listening.Complete 0 (Some (Error "subscribe failed"));
     Listening.Request "id1" (VStr "a");
     Listening.Request "id2" (VStr "b");
     Listening.Complete 0 (Some (Error "ack failed"));
     Listening.Complete 0 None]) as H.
  cbv zeta in H. destruct H as (_ & _ & H & _).
  exact (H _ _ Hin).
Defined.
